(** * sqlite3perf: the generate and bench commands

    A shallow embedding of [cmd/generate.go] and [cmd/bench.go] of
    mwmahlberg/sqlite3perf.  The two [Run] functions are transcribed
    statement by statement into a small state-and-termination monad: the
    state holds the database file's [bench] table, the list of observable
    events (log lines, SQL statements, channel sends) and the number of
    clock readings taken so far; a computation either goes on or stops the
    process ([log.Fatal], [os.Exit], a runtime panic).

    What the Go standard library and the SQLite driver do is modelled next
    to the code that calls them: [encoding/hex], [crypto/sha256] (FIPS
    180-4, checked against the published test vectors below), integer
    division with its run-time panic, and a store whose calls fail when the
    environment says so.

    Each command runs two goroutines.  [generateCmd] and [benchCmd] are the
    main one: its events, in its order.  The progress goroutine only reads
    the loop counter and writes log lines; it is modelled on its own
    ([generate_progress], [bench_progress]) as a function of what wakes it,
    the ticker or the [done] channel, and its lines are not part of the main
    goroutine's trace. *)

From Stdlib Require Import ZArith List Bool Lia QArith DecimalString.
From Stdlib.Strings Require Import String Ascii Byte.
Import ListNotations.

Local Open Scope string_scope.
Local Open Scope list_scope.
Local Open Scope Z_scope.

(** ** Bytes and fixed-width integers *)

Definition byte_to_Z (b : byte) : Z := Z.of_N (Byte.to_N b).

Definition byte_of_Z (z : Z) : byte :=
  match Byte.of_N (Z.to_N (z mod 256)) with
  | Some b => b
  | None => x00
  end.

(** Go's [int] and [int64] on the 64-bit platforms the program targets. *)
Definition MinInt64 : Z := - 2 ^ 63.
Definition MaxInt64 : Z := 2 ^ 63 - 1.

Definition wrap64 (z : Z) : Z := (z + 2 ^ 63) mod 2 ^ 64 - 2 ^ 63.

Inductive RuntimeError : Type :=
| DivideByZero          (* "runtime error: integer divide by zero" *)
| NilDereference.       (* "invalid memory address or nil pointer dereference" *)

(** [a / b] on [int64]: truncated division, a run-time panic when [b = 0]. *)
Definition int64_div (a b : Z) : RuntimeError + Z :=
  if b =? 0 then inl DivideByZero else inr (wrap64 (Z.quot a b)).

(** ** encoding/hex *)

Module hex.

Definition hextable : string := "0123456789abcdef".

Definition hexdigit (n : N) : ascii :=
  match String.get (N.to_nat n) hextable with
  | Some c => c
  | None => "0"%char
  end.

(** [hex.EncodeToString]: two lower-case digits for each byte. *)
Fixpoint EncodeToString (src : list byte) : string :=
  match src with
  | [] => EmptyString
  | b :: rest =>
      String (hexdigit (N.div (Byte.to_N b) 16))
        (String (hexdigit (N.modulo (Byte.to_N b) 16)) (EncodeToString rest))
  end.

(** The reverse table: digits in either case, nothing else. *)
Definition fromHexChar (c : ascii) : option N :=
  let n := N_of_ascii c in
  if (48 <=? n)%N && (n <=? 57)%N then Some (n - 48)%N
  else if (97 <=? n)%N && (n <=? 102)%N then Some (n - 97 + 10)%N
  else if (65 <=? n)%N && (n <=? 70)%N then Some (n - 65 + 10)%N
  else None.

Inductive Error : Type :=
| ErrLength                        (* odd length hex string *)
| InvalidByteError (c : ascii).    (* invalid byte *)

Definition mkbyte (a b : N) : byte := byte_of_Z (Z.of_N (a * 16 + b)).

(** [hex.DecodeString]: the bytes decoded before the first error, and the
    error.  An odd trailing character is reported as invalid when it is no
    digit and as [ErrLength] otherwise. *)
Fixpoint DecodeString (s : string) : list byte * option Error :=
  match s with
  | EmptyString => ([], None)
  | String p EmptyString =>
      match fromHexChar p with
      | None => ([], Some (InvalidByteError p))
      | Some _ => ([], Some ErrLength)
      end
  | String p (String q rest) =>
      match fromHexChar p, fromHexChar q with
      | None, _ => ([], Some (InvalidByteError p))
      | Some _, None => ([], Some (InvalidByteError q))
      | Some a, Some b =>
          let (bs, e) := DecodeString rest in (mkbyte a b :: bs, e)
      end
  end.

End hex.

(** ** crypto/sha256 *)

Module sha256.

Definition w32 (x : Z) : Z := Z.land x 4294967295.
Definition add32 (x y : Z) : Z := w32 (x + y).
Definition not32 (x : Z) : Z := Z.lxor x 4294967295.
Definition rotr (n x : Z) : Z :=
  Z.lor (Z.shiftr x n) (w32 (Z.shiftl x (32 - n))).

Definition Ch (x y z : Z) : Z := Z.lxor (Z.land x y) (Z.land (not32 x) z).
Definition Maj (x y z : Z) : Z :=
  Z.lxor (Z.lxor (Z.land x y) (Z.land x z)) (Z.land y z).
Definition Sigma0 (x : Z) : Z := Z.lxor (Z.lxor (rotr 2 x) (rotr 13 x)) (rotr 22 x).
Definition Sigma1 (x : Z) : Z := Z.lxor (Z.lxor (rotr 6 x) (rotr 11 x)) (rotr 25 x).
Definition sigma0 (x : Z) : Z := Z.lxor (Z.lxor (rotr 7 x) (rotr 18 x)) (Z.shiftr x 3).
Definition sigma1 (x : Z) : Z := Z.lxor (Z.lxor (rotr 17 x) (rotr 19 x)) (Z.shiftr x 10).

(** The round constants are the first 32 bits of the fractional parts of the
    cube roots of the first 64 primes, the initial hash value those of the
    square roots of the first 8 (FIPS 180-4, sections 4.2.2 and 5.3.3). *)
Definition is_prime (n : nat) : bool :=
  forallb (fun d => negb (Nat.eqb (Nat.modulo n d) 0)) (seq 2 (n - 2)).

Definition primes : list Z :=
  Eval vm_compute in map Z.of_nat (firstn 64 (filter is_prime (seq 2 400))).

(** The integer cube root, bit by bit from the top. *)
Definition cbrt (n : Z) : Z :=
  fold_left
    (fun x b => let y := x + 2 ^ b in if y * y * y <=? n then y else x)
    (map Z.of_nat (rev (seq 0 40))) 0.

Definition K : list Z :=
  Eval vm_compute in map (fun p => w32 (cbrt (p * 2 ^ 96))) primes.

Definition init : list Z :=
  Eval vm_compute in map (fun p => w32 (Z.sqrt (p * 2 ^ 64))) (firstn 8 primes).

(** Padding: a 1 bit, zeros up to 56 mod 64, the bit length on 8 bytes. *)
Definition be_bytes (n : nat) (x : Z) : list Z :=
  map (fun k => Z.land (Z.shiftr x (8 * Z.of_nat k)) 255) (rev (seq 0 n)).

Definition pad (msg : list Z) : list Z :=
  let len := Z.of_nat (List.length msg) in
  let zeros := Z.to_nat ((55 - len) mod 64) in
  msg ++ [128] ++ repeat 0 zeros ++ be_bytes 8 (8 * len).

Fixpoint words (n : nat) (bs : list Z) : list Z :=
  match n, bs with
  | S n', a :: b :: c :: d :: rest =>
      (Z.shiftl a 24 + Z.shiftl b 16 + Z.shiftl c 8 + d) :: words n' rest
  | _, _ => []
  end.

(** The message schedule, newest word first. *)
Fixpoint schedule (n : nat) (w : list Z) : list Z :=
  match n with
  | O => w
  | S n' =>
      let w2 := nth 1 w 0 in
      let w7 := nth 6 w 0 in
      let w15 := nth 14 w 0 in
      let w16 := nth 15 w 0 in
      schedule n'
        (add32 (add32 (sigma1 w2) w7) (add32 (sigma0 w15) w16) :: w)
  end.

Definition round (s : list Z) (kw : Z * Z) : list Z :=
  match s with
  | [a; b; c; d; e; f; g; h] =>
      let t1 :=
        add32 (add32 (add32 h (Sigma1 e)) (add32 (Ch e f g) (fst kw))) (snd kw) in
      let t2 := add32 (Sigma0 a) (Maj a b c) in
      [add32 t1 t2; a; b; c; add32 d t1; e; f; g]
  | _ => s
  end.

Definition block (h : list Z) (blk : list Z) : list Z :=
  let w := rev (schedule 48 (rev (words 16 blk))) in
  let s := fold_left round (combine K w) h in
  map (fun p => add32 (fst p) (snd p)) (combine h s).

Fixpoint blocks (n : nat) (h : list Z) (bs : list Z) : list Z :=
  match n with
  | O => h
  | S n' => blocks n' (block h (firstn 64 bs)) (skipn 64 bs)
  end.

(** The digest of a message: 32 bytes. *)
Definition Sum256 (msg : list byte) : list byte :=
  let p := pad (map byte_to_Z msg) in
  let h := blocks (Nat.div (List.length p) 64) init p in
  map byte_of_Z (flat_map (be_bytes 4) h).

(** A [hash.Hash] from [sha256.New()]: what has been written since the
    last [Reset]. *)
Definition Hash : Type := list byte.
Definition New : Hash := [].
Definition Write (h : Hash) (p : list byte) : Hash := h ++ p.
Definition Sum (h : Hash) : list byte := Sum256 h.
Definition Reset (h : Hash) : Hash := [].

End sha256.

(** ** float64, time.Time and time.Duration *)

(** What the log lines need of [float64]: division and multiplication with
    the IEEE 754 special values.  Finite values are kept as exact reduced
    fractions (rounding and the sign of zero are not modelled). *)
Inductive float64 : Type :=
| FNum (q : Q)
| FInf (negative : bool)
| FNaN.

Definition Qneg (q : Q) : bool := (Qnum q <? 0)%Z.
Definition Qzero (q : Q) : bool := (Qnum q =? 0)%Z.

Definition float64_of_int (z : Z) : float64 := FNum (inject_Z z).

Definition fdiv (x y : float64) : float64 :=
  match x, y with
  | FNaN, _ | _, FNaN => FNaN
  | FInf _, FInf _ => FNaN
  | FInf s, FNum b => FInf (xorb s (Qneg b))
  | FNum _, FInf _ => FNum 0
  | FNum a, FNum b =>
      if Qzero b then (if Qzero a then FNaN else FInf (Qneg a))
      else FNum (Qred (a / b))
  end.

Definition fmul (x y : float64) : float64 :=
  match x, y with
  | FNaN, _ | _, FNaN => FNaN
  | FInf s, FInf t => FInf (xorb s t)
  | FInf s, FNum b | FNum b, FInf s =>
      if Qzero b then FNaN else FInf (xorb s (Qneg b))
  | FNum a, FNum b => FNum (Qred (a * b))
  end.

Module time.

(** An instant is a number of nanoseconds on the process's clock, a
    [Duration] an [int64] number of nanoseconds. *)
Definition Time : Type := Z.
Definition Duration : Type := Z.

Definition Nanosecond : Duration := 1.
Definition Second : Duration := 1000000000.

(** [t.Sub(u)]: saturates at the ends of [int64]. *)
Definition Sub (t u : Time) : Duration :=
  Z.max MinInt64 (Z.min MaxInt64 (t - u)).

Definition Nanoseconds (d : Duration) : Z := d.
Definition Seconds (d : Duration) : float64 := fdiv (float64_of_int d) (float64_of_int Second).

End time.

(** ** The store, the environment and the observable events *)

(** A row of [bench]: [ID int PRIMARY KEY ASC, rand TEXT, hash TEXT]. *)
Record Row : Type := mkRow { ID : Z; rand : string; hash : string }.

Record Table : Type := mkTable { columns : string; rows : list Row }.

(** The five SQL statements the program sends. *)
Inductive SqlStmt : Type :=
| DropTable | CreateTable | InsertRow | Vacuum | SelectAll.

Definition bench_columns : string := "ID int PRIMARY KEY ASC, rand TEXT, hash TEXT".

Definition sql_text (q : SqlStmt) : string :=
  match q with
  | DropTable => "DROP TABLE IF EXISTS bench"
  | CreateTable => "CREATE TABLE bench (" ++ bench_columns ++ ");"
  | InsertRow => "INSERT INTO bench VALUES(?,?,?);"
  | Vacuum => "VACUUM;"
  | SelectAll => "select * from bench"
  end.

(** The calls that can fail for reasons outside the program. *)
Inductive Call : Type :=
| CallOpen                       (* sql.Open *)
| CallExec (q : SqlStmt)         (* db.Exec *)
| CallPrepare (q : SqlStmt)      (* db.Prepare *)
| CallRead (i : Z)               (* rand.Read in iteration i *)
| CallStmtExec (i : Z)           (* st.Exec in iteration i *)
| CallQuery (q : SqlStmt)        (* db.Query *)
| CallNext (k : nat)             (* the k-th rows.Next, from 0 *)
| CallScan (k : nat)             (* rows.Scan of the k-th row *)
| CallRowsClose                  (* rows.Close *)
| CallDBClose.                   (* db.Close *)

(** One run's environment: which calls fail and with what error text, the
    eight bytes the random source delivers in iteration [i] (as one 64-bit
    number), and the successive readings of the clock. *)
Record Env : Type := mkEnv {
  fault : Call -> option string;
  entropy : Z -> Z;
  now : nat -> time.Time
}.

(** The command-line flags, [init]'s package variables. *)
Record Flags : Type := mkFlags {
  dbPath : string;
  numRecs : Z;
  vacuum : bool;
  logSeconds : Z
}.

Definition default_flags : Flags :=
  {| dbPath := "./sqlite3perf.db"; numRecs := 1000; vacuum := false; logSeconds := 2 |}.

Inductive Arg : Type :=
| AInt (z : Z)
| AStr (s : string)
| AFloat (f : float64)
| ADur (d : time.Duration).

Inductive Event : Type :=
| Log (format : string) (args : list Arg)      (* a line of the standard logger *)
| Print (format : string) (args : list Arg)    (* fmt.Printf on standard output *)
| Sql (q : SqlStmt) (args : list Arg)          (* a statement that was run *)
| Next (k : nat)                               (* rows.Next returned a row *)
| Closed (c : Call) (err : option string)      (* a deferred Close and its result *)
| Go                                           (* the progress goroutine is started *)
| SendDone.                                    (* done <- true *)

Record World : Type := mkWorld {
  db : option Table;        (* the table bench of the database file *)
  trace : list Event;       (* oldest event first *)
  clock : nat               (* clock readings taken so far *)
}.

(** How a process ends. *)
Inductive Stop : Type :=
| Exit (code : Z)             (* os.Exit, also through log.Fatal *)
| Panic (e : RuntimeError).   (* an unrecovered run-time panic *)

Inductive Res (A : Type) : Type :=
| Ok (a : A)
| Halt (s : Stop).
Arguments Ok {A} a.
Arguments Halt {A} s.

Definition M (A : Type) : Type := World -> Res A * World.

Definition ret {A} (a : A) : M A := fun w => (Ok a, w).

Definition bind {A B} (m : M A) (k : A -> M B) : M B :=
  fun w =>
    match m w with
    | (Ok a, w') => k a w'
    | (Halt s, w') => (Halt s, w')
    end.

Declare Scope run_scope.
Delimit Scope run_scope with run.
Notation "x <- m ;; k" := (bind m (fun x => k))
  (at level 100, m at next level, right associativity) : run_scope.
Notation "' p <- m ;; k" := (bind m (fun x => match x with p => k end))
  (at level 100, p pattern, m at next level, right associativity) : run_scope.
Notation "m ;; k" := (bind m (fun _ => k))
  (at level 100, right associativity) : run_scope.
Local Open Scope run_scope.

Definition emit (e : Event) : M unit :=
  fun w => (Ok tt, {| db := db w; trace := trace w ++ [e]; clock := clock w |}).

Definition halt {A} (s : Stop) : M A := fun w => (Halt s, w).

Definition get_db : M (option Table) := fun w => (Ok (db w), w).

Definition put_db (d : option Table) : M unit :=
  fun w => (Ok tt, {| db := d; trace := trace w; clock := clock w |}).

(** [defer d] around the rest of the function: [d] runs when the function
    returns and when it panics, not when the process exits. *)
Definition defer {A} (d : M unit) (body : M A) : M A :=
  fun w =>
    match body w with
    | (Halt (Exit c), w') => (Halt (Exit c), w')
    | (r, w') => (r, snd (d w'))
    end.

(** The exit status of a finished process. *)
Definition exit_status {A} (r : Res A) : Z :=
  match r with
  | Ok _ => 0
  | Halt (Exit c) => c
  | Halt (Panic _) => 2
  end.

(** *** log, fmt, os *)

Definition log_Printf (format : string) (args : list Arg) : M unit :=
  emit (Log format args).

Definition log_Println (s : string) : M unit := emit (Log s []).

(** [log.Fatalf] and [log.Fatal]: the line, then [os.Exit(1)]. *)
Definition log_Fatalf {A} (format : string) (args : list Arg) : M A :=
  emit (Log format args) ;; halt (Exit 1).

Definition fmt_Printf (format : string) (args : list Arg) : M unit :=
  emit (Print format args).

Definition os_Exit {A} (code : Z) : M A := halt (Exit code).

(** [len(fmt.Sprintf("%d", n))] *)
Definition decimal_len (n : Z) : Z :=
  Z.of_nat (String.length (DecimalString.NilZero.string_of_int (Z.to_int n))).

(** A division whose divisor may be zero. *)
Definition div (a b : Z) : M Z :=
  match int64_div a b with
  | inl e => halt (Panic e)
  | inr q => ret q
  end.

(** [i++] on a 64-bit integer. *)
Definition incr (i : Z) : Z := wrap64 (i + 1).

(** The eight bytes of a 64-bit number, most significant first. *)
Definition bytes8 (x : Z) : list byte :=
  map (fun k => byte_of_Z (Z.shiftr x (8 * Z.of_nat k))) (rev (seq 0 8)).

(** ** The two commands *)

Section Commands.

Variable env : Env.
Variable flags : Flags.

(** *** time *)

Definition time_Now : M time.Time :=
  fun w => (Ok (now env (clock w)),
            {| db := db w; trace := trace w; clock := S (clock w) |}).

Definition time_Since (t : time.Time) : M time.Duration :=
  n <- time_Now ;; ret (time.Sub n t).

(** *** database/sql over the SQLite driver *)

Definition sql_Open : M (option string) := ret (fault env CallOpen).

(** What a statement does to the table once the driver runs it. *)
Definition run_sql (q : SqlStmt) (args : Row) (d : option Table)
  : string + option Table :=
  match q with
  | DropTable => inr None
  | CreateTable =>
      match d with
      | Some _ => inl "table bench already exists"
      | None => inr (Some {| columns := bench_columns; rows := [] |})
      end
  | InsertRow =>
      match d with
      | None => inl "no such table: bench"
      | Some t =>
          if existsb (fun r => ID r =? ID args) (rows t)
          then inl "UNIQUE constraint failed: bench.ID"
          else inr (Some {| columns := columns t; rows := rows t ++ [args] |})
      end
  | Vacuum => inr d
  | SelectAll => inr d
  end.

Definition no_row : Row := {| ID := 0; rand := ""; hash := "" |}.

(** [db.Exec(q)]: the error, if any. *)
Definition db_Exec (q : SqlStmt) : M (option string) :=
  match fault env (CallExec q) with
  | Some e => ret (Some e)
  | None =>
      d <- get_db ;;
      match run_sql q no_row d with
      | inl e => ret (Some e)
      | inr d' => put_db d' ;; emit (Sql q []) ;; ret None
      end
  end.

(** [db.Prepare(q)]: the statement, [nil] together with an error. *)
Definition db_Prepare (q : SqlStmt) : M (option SqlStmt * option string) :=
  match fault env (CallPrepare q) with
  | Some e => ret (None, Some e)
  | None => ret (Some q, None)
  end.

(** [st.Exec(i, rand, hash)]: a method call on a nil [*sql.Stmt] panics. *)
Definition st_Exec (st : option SqlStmt) (i : Z) (r h : string)
  : M (option string) :=
  match st with
  | None => halt (Panic NilDereference)
  | Some q =>
      match fault env (CallStmtExec i) with
      | Some e => ret (Some e)
      | None =>
          d <- get_db ;;
          match run_sql q {| ID := i; rand := r; hash := h |} d with
          | inl e => ret (Some e)
          | inr d' =>
              put_db d' ;; emit (Sql q [AInt i; AStr r; AStr h]) ;; ret None
          end
      end
  end.

(** [db.Query(q)]: the rows the cursor will deliver, or an error. *)
Definition db_Query (q : SqlStmt) : M (string + list Row) :=
  match fault env (CallQuery q) with
  | Some e => ret (inl e)
  | None =>
      d <- get_db ;;
      match d with
      | None => ret (inl "no such table: bench")
      | Some t => emit (Sql q []) ;; ret (inr (rows t))
      end
  end.

(** The deferred [Close] calls: whatever they return is dropped. *)
Definition db_Close : M unit := emit (Closed CallDBClose (fault env CallDBClose)).
Definition rows_Close : M unit := emit (Closed CallRowsClose (fault env CallRowsClose)).

(** [rand.Read(b)] in iteration [i]: [b] filled, or an error. *)
Definition rand_Read (i : Z) : M (string + list byte) :=
  match fault env (CallRead i) with
  | Some e => ret (inl e)
  | None => ret (inr (bytes8 (entropy env i)))
  end.

(** *** generate *)

(** One pass of the body of [for i = 0; i < numRecs; i++], lines 207-223:
    the hasher after the pass. *)
Definition generate_body (st : option SqlStmt) (i : Z) (h : sha256.Hash)
  : M sha256.Hash :=
  r <- rand_Read i ;;
  match r with
  | inl e => log_Fatalf "Can not read random values: %s" [AStr e]
  | inr b =>
      let h := sha256.Write h b in
      err <- st_Exec st i (hex.EncodeToString b)
               (hex.EncodeToString (sha256.Sum h)) ;;
      match err with
      | Some e => log_Fatalf "Inserting values into database failed: %s" [AStr e]
      | None => ret (sha256.Reset h)
      end
  end.

(** The loop [for i = 0; i < numRecs; i++], entered with [todo] passes to
    go, the number of times the test [i < numRecs] will still hold: the
    final [i] and hasher. *)
Fixpoint generate_loop (todo : nat) (st : option SqlStmt) (i : Z)
  (h : sha256.Hash) : M (Z * sha256.Hash) :=
  match todo with
  | O => ret (i, h)
  | S todo' =>
      h' <- generate_body st i h ;;
      generate_loop todo' st (incr i) h'
  end.

Definition written_format : string := "%*d/%*d (%6.2f%%) written in %s".

Definition generateCmd : M unit :=
  log_Printf "Generating %d records" [AInt (numRecs flags)] ;;
  log_Println "Opening database" ;;
  err <- sql_Open ;;
  match err with
  | Some e =>
      log_Fatalf "Error while opening database '%s': %s" [AStr (dbPath flags); AStr e]
  | None => ret tt
  end ;;
  defer db_Close (
    log_Println "Dropping table 'bench' if already present" ;;
    err <- db_Exec DropTable ;;
    match err with
    | Some e =>
        log_Fatalf "Could not delete table 'bench' for (re-)generation of data: %s" [AStr e]
    | None => ret tt
    end ;;
    log_Println "(Re-)creating table 'bench'" ;;
    err <- db_Exec CreateTable ;;
    match err with
    | Some e => log_Fatalf "Could not create table 'bench': %s" [AStr e]
    | None => ret tt
    end ;;
    log_Println "Setting up the environment" ;;
    '(st, _) <- db_Prepare InsertRow ;;
    let p := fdiv (float64_of_int 100) (float64_of_int (numRecs flags)) in
    let h := sha256.New in
    let l := decimal_len (numRecs flags) in
    start <- time_Now ;;
    emit Go ;;
    log_Println "Starting inserts" ;;
    '(i, _) <- generate_loop (Z.to_nat (numRecs flags)) st 0 h ;;
    stop <- time_Now ;;
    emit SendDone ;;
    let dur := time.Sub stop start in
    log_Printf written_format
      [AInt l; AInt i; AInt l; AInt (numRecs flags);
       AFloat (fmul p (float64_of_int i)); ADur (time.Sub stop start)] ;;
    avg <- div (time.Nanoseconds dur) (numRecs flags) ;;
    log_Printf "Average time per Record: %s, %2.2f records/s"
      [ADur avg; AFloat (fdiv (float64_of_int (numRecs flags)) (time.Seconds dur))] ;;
    if vacuum flags then
      log_Println "Vaccumating database file" ;;
      start <- time_Now ;;
      err <- db_Exec Vacuum ;;
      match err with
      | Some e =>
          log_Printf "Vacuumating database caused an error: %s" [AStr e] ;;
          log_Println "Proceed with according caution."
      | None => ret tt
      end ;;
      d <- time_Since start ;;
      log_Printf "Vacuumation took %s" [ADur d]
    else ret tt).

(** *** bench *)

(** The variables the loop of [bench] carries from one row to the next:
    the counter [i], the hasher, and whether [once] has fired. *)
Record BenchVars : Type := mkVars {
  processed : Z;
  hasher : sha256.Hash;
  once_done : bool
}.

Definition mismatch_message : string :=
  "Hash of original value and persistet hash do not match!".

Definition first_row_format : string :=
  "Acessing the first result set \n\tID %d,\n\trand: %s,\n\thash: %s\ntook %s".

Definition decode_message : string :=
  "Could not decode hex string of original value to byte slice: ".

(** The body of [for rows.Next()], lines 89-110, for the [k]-th row. *)
Definition bench_body (pre : time.Time) (k : nat) (r : Row) (s : BenchVars)
  : M BenchVars :=
  match fault env (CallScan k) with
  | Some e => log_Fatalf e []
  | None =>
      (if once_done s then ret tt
       else
         d <- time_Since pre ;;
         log_Printf first_row_format
           [AInt (ID r); AStr (rand r); AStr (hash r); ADur d]) ;;
      let h := sha256.Reset (hasher s) in
      match hex.DecodeString (rand r) with
      | (_, Some _) =>
          log_Println decode_message ;;
          (* continue *)
          ret {| processed := processed s; hasher := h; once_done := true |}
      | (v, None) =>
          let h := sha256.Write h v in
          if negb (String.eqb (hex.EncodeToString (sha256.Sum h)) (hash r))
          then log_Fatalf mismatch_message []
          else
            ret {| processed := incr (processed s);
                   hasher := sha256.Reset h;
                   once_done := true |}
      end
  end.

(** The loop over the cursor: [pending] are the rows not yet delivered,
    [k] counts the calls of [rows.Next].  The result is the variables
    after the loop and what [rows.Err()] will report. *)
Fixpoint bench_loop (pre : time.Time) (pending : list Row) (k : nat)
  (s : BenchVars) : M (BenchVars * option string) :=
  match fault env (CallNext k) with
  | Some e => ret (s, Some e)
  | None =>
      match pending with
      | [] => ret (s, None)
      | r :: rest =>
          emit (Next k) ;;
          s' <- bench_body pre k r s ;;
          bench_loop pre rest (S k) s'
      end
  end.

Definition processed_format : string := "%d rows processed".
Definition average_format : string := "Average %s per record, %s overall".

Definition benchCmd : M unit :=
  log_Println "Running benchmark" ;;
  err <- sql_Open ;;
  match err with
  | Some e =>
      fmt_Printf "Error while opening database '%s': %s" [AStr (dbPath flags); AStr e] ;;
      os_Exit 1
  | None => ret tt
  end ;;
  defer db_Close (
    start <- time_Now ;;
    q <- db_Query SelectAll ;;
    match q with
    | inl e => log_Fatalf e []
    | inr cursor =>
        defer rows_Close (
          d <- time_Since start ;;
          log_Printf "Time after query: %s" [ADur d] ;;
          log_Println "Beginning loop" ;;
          let h := sha256.New in
          l <- time_Now ;;
          emit Go ;;
          pre <- time_Now ;;
          '(s, rows_Err) <-
            bench_loop pre cursor 0
              {| processed := 0; hasher := h; once_done := false |} ;;
          let i := processed s in
          e <- time_Since start ;;
          el <- time_Since l ;;
          emit SendDone ;;
          log_Printf processed_format [AInt i] ;;
          log_Printf "Finished loop after %s" [ADur el] ;;
          match rows_Err with
          | Some err => log_Fatalf err []
          | None => ret tt
          end ;;
          avg <- div (time.Nanoseconds e) i ;;
          log_Printf average_format [ADur avg; ADur e])
    end).

(** *** The progress goroutines *)

(** What wakes a progress goroutine in its [select]: the ticker, at which
    point it reads the clock and the loop's counter, or the [done]
    channel. *)
Inductive Wake : Type :=
| Tick (t : time.Time) (i : Z)
| Done.




Definition progress_format : string :=
  "%*d/%*d (%6.2f%%) written, avg: %s/record, %2.2f records/s".

(** The goroutine of [generate], lines 187-203: the lines it logs and how
    it ends ([None]: still waiting in [select]). *)
Fixpoint generate_progress (start : time.Time) (ws : list Wake)
  : list Event * option (Res unit) :=
  match ws with
  | [] => ([], None)
  | Done :: _ => ([], Some (Ok tt))
  | Tick t i :: ws' =>
      let l := decimal_len (numRecs flags) in
      let p := fdiv (float64_of_int 100) (float64_of_int (numRecs flags)) in
      match int64_div (time.Nanoseconds (time.Sub t start)) i with
      | inl e => ([], Some (Halt (Panic e)))
      | inr avg =>
          let (out, r) := generate_progress start ws' in
          (Log progress_format
             [AInt l; AInt i; AInt l; AInt (numRecs flags);
              AFloat (fmul p (float64_of_int i)); ADur avg;
              AFloat (fdiv (float64_of_int i) (time.Seconds (time.Sub t start)))]
             :: out, r)
      end
  end.

(** The goroutine of [bench], lines 73-83. *)
Fixpoint bench_progress (ws : list Wake) : list Event * option (Res unit) :=
  match ws with
  | [] => ([], None)
  | Done :: _ => ([], Some (Ok tt))
  | Tick _ c :: ws' =>
      let (out, r) := bench_progress ws' in
      (Log processed_format [AInt c] :: out, r)
  end.

End Commands.

Arguments fdiv : simpl never.
Arguments fmul : simpl never.
Arguments decimal_len : simpl never.
Arguments time.Sub : simpl never.
Arguments time.Seconds : simpl never.
Arguments sha256.Sum256 : simpl never.
Arguments sha256.Sum : simpl never.
Arguments hex.EncodeToString : simpl never.
Arguments hex.DecodeString : simpl never.
Arguments bytes8 : simpl never.
Arguments incr : simpl never.
Arguments int64_div : simpl never.
Arguments String.eqb : simpl never.

(** ** Definitions used in the statements *)

(** A run of a command starts on a database file that holds [d], with
    nothing logged yet. *)
Definition start_world (d : option Table) : World :=
  {| db := d; trace := []; clock := 0 |}.

(** The SQL statements of a trace, in the order they were run. *)
Definition is_sql (e : Event) : bool :=
  match e with
  | Sql _ _ => true
  | _ => false
  end.

Definition statements (tr : list Event) : list Event := filter is_sql tr.

Definition insert_of (r : Row) : Event :=
  Sql InsertRow [AInt (ID r); AStr (rand r); AStr (hash r)].

(** The stored hash is the hex form of the digest of the decoded [rand]. *)
Definition hash_matches (r : Row) : Prop :=
  exists v, hex.DecodeString (rand r) = (v, None) /\
            hash r = hex.EncodeToString (sha256.Sum256 v).

(** [0; 1; ...; n-1] *)
Definition ids (n : nat) : list Z := map Z.of_nat (seq 0 n).

(** The row iteration [i] writes. *)
Definition generated_row (env : Env) (i : Z) : Row :=
  let b := bytes8 (entropy env i) in
  {| ID := i;
     rand := hex.EncodeToString b;
     hash := hex.EncodeToString (sha256.Sum256 b) |}.

(** What a failing pass leaves in the trace: nothing (a panic) or the one
    line of [log.Fatalf]. *)
Definition one_line (ev : list Event) : Prop :=
  ev = [] \/ exists f a, ev = [Log f a].

(** The rows of [n] successive passes, the first with index [i]. *)
Definition generated_rows (env : Env) (i : Z) (n : nat) : list Row :=
  map (fun k => generated_row env (i + Z.of_nat k)) (seq 0 n).

Definition empty_bench : Table := {| columns := bench_columns; rows := [] |}.

(** What the body of the loop finds in a row. *)
Inductive Verdict : Type :=
| Skipped      (* rand is no hex string *)
| Verified     (* the digest of the decoded rand, in hex, is the stored hash *)
| Mismatch.    (* it is another string *)

Definition verdict (r : Row) : Verdict :=
  match hex.DecodeString (rand r) with
  | (_, Some _) => Skipped
  | (v, None) =>
      if String.eqb (hex.EncodeToString (sha256.Sum256 v)) (hash r)
      then Verified else Mismatch
  end.

Definition count_verified (rs : list Row) : Z :=
  Z.of_nat (List.length (filter (fun r => match verdict r with Verified => true | _ => false end) rs)).

(** The world after [once.Do]: the first row is logged, later ones are not. *)
Definition after_once (env : Env) (pre : time.Time) (r : Row) (s : BenchVars)
    (w : World) : World :=
  if once_done s then w
  else {| db := db w;
          trace := trace w ++
            [Log first_row_format
               [AInt (ID r); AStr (rand r); AStr (hash r);
                ADur (time.Sub (now env (clock w)) pre)]];
          clock := S (clock w) |}.

Definition log_line (w : World) (f : string) : World :=
  {| db := db w; trace := trace w ++ [Log f []]; clock := clock w |}.

(** The world once [rows.Next] has delivered row [k]. *)
Definition fetched (w : World) (k : nat) : World :=
  {| db := db w; trace := trace w ++ [Next k]; clock := clock w |}.

(** The world in which the loop of bench starts, on a store holding [t]. *)
Definition bench_ready (env : Env) (t : Table) : World :=
  {| db := Some t;
     trace := [Log "Running benchmark" []; Sql SelectAll [];
               Log "Time after query: %s" [ADur (time.Sub (now env 1) (now env 0))];
               Log "Beginning loop" []; Go];
     clock := 4 |}.

Definition bench_start : BenchVars :=
  {| processed := 0; hasher := sha256.New; once_done := false |}.

(** The lines after the loop, up to the check of [rows.Err()]. *)
Definition bench_summary (env : Env) (wl : World) (i : Z) : list Event :=
  [SendDone; Log processed_format [AInt i];
   Log "Finished loop after %s" [ADur (time.Sub (now env (S (clock wl))) (now env 2))]].

Definition bench_closes (env : Env) : list Event :=
  [Closed CallRowsClose (fault env CallRowsClose);
   Closed CallDBClose (fault env CallDBClose)].

(** The environment [env], except that closing the cursor returns [e1] and
    closing the database [e2]. *)
Definition with_close_errors (env : Env) (e1 e2 : option string) : Env :=
  {| fault := fun c =>
       match c with
       | CallRowsClose => e1
       | CallDBClose => e2
       | _ => fault env c
       end;
     entropy := entropy env;
     now := now env |}.

(** ** Sample inputs *)

(** An environment in which nothing fails; the clock advances by one
    millisecond between readings. *)
Definition sample_env : Env :=
  {| fault := fun _ => None;
     entropy := fun i => i * 1234567891234567;
     now := fun k => Z.of_nat k * 1000000 |}.

Definition records (n : Z) : Flags :=
  {| dbPath := "./sqlite3perf.db"; numRecs := n; vacuum := false; logSeconds := 2 |}.

Definition old_table : Table :=
  {| columns := "k INTEGER, v BLOB";
     rows := [ {| ID := 7; rand := "00"; hash := "" |} ] |}.

(** A table with a verified row, a row whose rand is no hex string, a row
    whose hash was altered (its last digit), and one more verified row. *)
Definition good_row_0 : Row :=
  {| ID := 0; rand := "0000000000000000";
     hash := "af5570f5a1810b7af78caf4bc70a660f0df51e42baf91d4de5b2328de0e83dfc" |}.

Definition good_row_1 : Row :=
  {| ID := 1; rand := "000462d53c9baf07";
     hash := "1db45e80c0ed34aa34bf11d3c6ac7762c12159559a999400dc86609fd89c9bd5" |}.

Definition unhex_row : Row :=
  {| ID := 2; rand := "not hex at all!!";
     hash := "af5570f5a1810b7af78caf4bc70a660f0df51e42baf91d4de5b2328de0e83dfc" |}.

Definition altered_row : Row :=
  {| ID := 3; rand := "0000000000000000";
     hash := "af5570f5a1810b7af78caf4bc70a660f0df51e42baf91d4de5b2328de0e83dfd" |}.

Definition altered_table : Table :=
  {| columns := bench_columns;
     rows := [good_row_0; unhex_row; altered_row; good_row_1] |}.

Definition skipping_table : Table :=
  {| columns := bench_columns; rows := [good_row_0; unhex_row; good_row_1] |}.

(** An environment in which closing the cursor fails and nothing else. *)
Definition close_fails : Env :=
  with_close_errors sample_env (Some "disk I/O error") None.

Definition two_rows : Table :=
  {| columns := bench_columns; rows := [good_row_0; good_row_1] |}.


(** An environment in which the INSERT statement cannot be prepared. *)
Definition prepare_fails : Env :=
  {| fault := fun c => match c with
                       | CallPrepare InsertRow => Some "database is locked"
                       | _ => None
                       end;
     entropy := entropy sample_env;
     now := now sample_env |}.

(** An environment in which the insert of pass 2 fails. *)
Definition insert_fails : Env :=
  {| fault := fun c => match c with
                       | CallStmtExec 2 => Some "database or disk is full"
                       | _ => None
                       end;
     entropy := entropy sample_env;
     now := now sample_env |}.

(** An environment in which the table cannot be created. *)
Definition create_fails : Env :=
  {| fault := fun c => match c with
                       | CallExec CreateTable => Some "attempt to write a readonly database"
                       | _ => None
                       end;
     entropy := entropy sample_env;
     now := now sample_env |}.



(** An environment in which the cursor fails when asked for its third row. *)
Definition cursor_breaks : Env :=
  {| fault := fun c => match c with
                       | CallNext 2 => Some "database disk image is malformed"
                       | _ => None
                       end;
     entropy := entropy sample_env;
     now := now sample_env |}.

(** An environment in which the store cannot be opened. *)
Definition open_fails : Env :=
  {| fault := fun c => match c with
                       | CallOpen => Some "unable to open database file"
                       | _ => None
                       end;
     entropy := entropy sample_env;
     now := now sample_env |}.

(** An environment in which the second row cannot be scanned. *)
Definition scan_fails : Env :=
  {| fault := fun c => match c with
                       | CallScan 1 => Some "sql: Scan error on column index 1"
                       | _ => None
                       end;
     entropy := entropy sample_env;
     now := now sample_env |}.

(** What wakes a progress goroutine in a sample run: two ticks, [done], and a
    tick that comes too late. *)
Definition sample_wakes : list Wake :=
  [Tick 2000000000 17; Tick 4000000000 40; Done; Tick 6000000000 40].

(** An insert so slow that the first tick finds the counter at 0. *)
Definition slow_first_insert : list Wake :=
  [Tick 2000000000 0; Tick 4000000000 1; Done].

(** A tick: not [done], and the counter it reads is not 0. *)
Definition counting_tick (x : Wake) : Prop :=
  match x with
  | Tick _ i => i <> 0
  | Done => False
  end.

(** The columns of a row as generate writes them: 16 and 64 characters. *)
Definition well_laid_out (r : Row) : Prop :=
  String.length (rand r) = 16%nat /\ String.length (hash r) = 64%nat.

(** ** Test vectors *)

Example sha256_empty :
  hex.EncodeToString (sha256.Sum256 []) =
  "e3b0c44298fc1c149afbf4c8996fb92427ae41e4649b934ca495991b7852b855".
Proof. vm_compute. reflexivity. Qed.

Example sha256_abc :
  hex.EncodeToString (sha256.Sum256 (list_byte_of_string "abc")) =
  "ba7816bf8f01cfea414140de5dae2223b00361a396177a9cb410ff61f20015ad".
Proof. vm_compute. reflexivity. Qed.

Example sha256_two_blocks :
  hex.EncodeToString
    (sha256.Sum256
       (list_byte_of_string "abcdbcdecdefdefgefghfghighijhijkijkljklmklmnlmnomnopnopq")) =
  "248d6a61d20638b8e5c026930c3e6039a33ce45964ff2167f6ecedd419db06c1".
Proof. vm_compute. reflexivity. Qed.

Example decode_mixed_case :
  hex.DecodeString "00fF1a" = (["000"%byte; "255"%byte; "026"%byte], None).
Proof. vm_compute. reflexivity. Qed.

Example decode_invalid :
  hex.DecodeString "00zz" = (["000"%byte], Some (hex.InvalidByteError "z")).
Proof. vm_compute. reflexivity. Qed.

Example decode_odd :
  hex.DecodeString "00f" = (["000"%byte], Some hex.ErrLength).
Proof. vm_compute. reflexivity. Qed.

(** ** encoding/hex: decoding undoes encoding *)

Lemma hex_byte (b : byte) :
  hex.fromHexChar (hex.hexdigit (N.div (Byte.to_N b) 16)) = Some (N.div (Byte.to_N b) 16)
  /\ hex.fromHexChar (hex.hexdigit (N.modulo (Byte.to_N b) 16)) = Some (N.modulo (Byte.to_N b) 16)
  /\ hex.mkbyte (N.div (Byte.to_N b) 16) (N.modulo (Byte.to_N b) 16) = b.
Proof. destruct b; vm_compute; auto. Qed.

Lemma EncodeToString_cons (b : byte) (bs : list byte) :
  hex.EncodeToString (b :: bs) =
  String (hex.hexdigit (N.div (Byte.to_N b) 16))
    (String (hex.hexdigit (N.modulo (Byte.to_N b) 16)) (hex.EncodeToString bs)).
Proof. reflexivity. Qed.

Lemma DecodeString_pair (p q : ascii) (rest : string) :
  hex.DecodeString (String p (String q rest)) =
  match hex.fromHexChar p, hex.fromHexChar q with
  | None, _ => ([], Some (hex.InvalidByteError p))
  | Some _, None => ([], Some (hex.InvalidByteError q))
  | Some a, Some b =>
      let (bs, e) := hex.DecodeString rest in (hex.mkbyte a b :: bs, e)
  end.
Proof. reflexivity. Qed.

Lemma decode_encode (bs : list byte) :
  hex.DecodeString (hex.EncodeToString bs) = (bs, None).
Proof.
  induction bs as [| b bs IH]; [reflexivity |].
  destruct (hex_byte b) as (Hhi & Hlo & Hb).
  rewrite EncodeToString_cons, DecodeString_pair, Hhi, Hlo, IH, Hb.
  reflexivity.
Qed.

Lemma wrap64_small (z : Z) : MinInt64 <= z <= MaxInt64 -> wrap64 z = z.
Proof.
  unfold wrap64, MinInt64, MaxInt64. intros H.
  rewrite Z.mod_small; lia.
Qed.

Lemma incr_small (i : Z) : MinInt64 <= i < MaxInt64 -> incr i = i + 1.
Proof.
  unfold incr. intros H. apply wrap64_small. lia.
Qed.

(** ** The insert loop of generate *)

Lemma generated_row_matches (env : Env) (i : Z) :
  hash_matches (generated_row env i).
Proof.
  exists (bytes8 (entropy env i)). split; [apply decode_encode | reflexivity].
Qed.

Ltac run_step :=
  unfold bind, ret, emit, halt, log_Fatalf, log_Printf, log_Println, fmt_Printf,
    os_Exit, get_db, put_db, time_Since, time_Now, div in *;
  cbn [db trace clock fst snd] in *.

(** One pass: either the row is appended and one [INSERT] traced, or the
    process stops and the table is as it was. *)
Lemma generate_body_spec (env : Env) (st : option SqlStmt) (i : Z) (w : World)
    (r : Res sha256.Hash) (w' : World) :
  (forall q, st = Some q -> q = InsertRow) ->
  generate_body env st i sha256.New w = (r, w') ->
  match r with
  | Ok h' =>
      h' = sha256.New /\ st = Some InsertRow /\
      exists t, db w = Some t /\
        existsb (fun r => ID r =? i) (rows t) = false /\
        w' = {| db := Some {| columns := columns t;
                              rows := rows t ++ [generated_row env i] |};
                trace := trace w ++ [insert_of (generated_row env i)];
                clock := clock w |}
  | Halt s =>
      db w' = db w /\ clock w' = clock w /\
      exists ev, trace w' = trace w ++ ev /\ one_line ev
  end.
Proof.
  intros Hst. unfold generate_body, rand_Read, st_Exec.
  assert (Hstop : forall (f : string) (a : list Arg),
             exists ev, trace w ++ [Log f a] = trace w ++ ev /\ one_line ev).
  { intros f a. exists [Log f a]. split; [reflexivity |]. right. eauto. }
  destruct (fault env (CallRead i)) as [e |]; run_step.
  { intros [= <- <-]. cbn [db trace clock]. auto. }
  destruct st as [q |]; run_step.
  2:{ intros [= <- <-]. split; [reflexivity |]. split; [reflexivity |].
      exists []. rewrite app_nil_r. split; [reflexivity |]. left. reflexivity. }
  rewrite (Hst q eq_refl).
  destruct (fault env (CallStmtExec i)) as [e |]; run_step.
  { intros [= <- <-]. cbn [db trace clock]. auto. }
  unfold run_sql. destruct (db w) as [t |] eqn:Hdb; run_step.
  2:{ intros [= <- <-]. cbn [db trace clock]. auto. }
  cbn [ID]. destruct (existsb _ (rows t)) eqn:Hdup; run_step.
  { intros [= <- <-]. cbn [db trace clock]. auto. }
  intros [= <- <-]. split; [reflexivity |]. split; [reflexivity |].
  exists t. split; [reflexivity |]. split; [exact Hdup |].
  unfold generated_row, insert_of, sha256.Sum, sha256.Write, sha256.New.
  cbn [ID rand hash app]. reflexivity.
Qed.

Lemma generated_rows_S (env : Env) (i : Z) (n : nat) :
  generated_rows env i (S n) = generated_row env i :: generated_rows env (i + 1) n.
Proof.
  unfold generated_rows. cbn [seq map]. change (Z.of_nat 0) with 0.
  rewrite Z.add_0_r, <- seq_shift, map_map.
  apply (f_equal (cons (generated_row env i))).
  apply map_ext. intros k.
  replace (i + Z.of_nat (S k)) with (i + 1 + Z.of_nat k) by lia. reflexivity.
Qed.

Lemma generated_rows_ids (env : Env) (n : nat) :
  map ID (generated_rows env 0 n) = ids n.
Proof.
  unfold generated_rows, ids. rewrite map_map. apply map_ext. reflexivity.
Qed.

Lemma generated_rows_match (env : Env) (i : Z) (n : nat) :
  Forall hash_matches (generated_rows env i n).
Proof.
  unfold generated_rows. apply Forall_forall. intros r Hr.
  apply in_map_iff in Hr. destruct Hr as (k & <- & _).
  apply generated_row_matches.
Qed.

Lemma statements_app (a b : list Event) :
  statements (a ++ b) = statements a ++ statements b.
Proof. apply filter_app. Qed.

Lemma statements_insert_of (rs : list Row) :
  statements (map insert_of rs) = map insert_of rs.
Proof.
  induction rs as [| r rs IH]; [reflexivity |].
  cbn [map statements filter insert_of is_sql]. f_equal. exact IH.
Qed.

Lemma statements_one_line (ev : list Event) : one_line ev -> statements ev = [].
Proof. intros [-> | (f & a & ->)]; reflexivity. Qed.

Lemma SendDone_one_line (ev : list Event) : one_line ev -> ~ In SendDone ev.
Proof. intros [-> | (f & a & ->)] H; cbn in H; intuition discriminate. Qed.

Lemma SendDone_insert_of (rs : list Row) : ~ In SendDone (map insert_of rs).
Proof. intros H. apply in_map_iff in H. destruct H as (r & H & _). discriminate H. Qed.

(** The loop: [n] passes succeed and append their rows in order; when the
    loop runs to its end, [n] is all of them. *)
Lemma generate_loop_spec (env : Env) (st : option SqlStmt) :
  (forall q, st = Some q -> q = InsertRow) ->
  forall (todo : nat) (i : Z) (w : World) (r : Res (Z * sha256.Hash)) (w' : World)
         (t : Table),
    db w = Some t ->
    Forall (fun r => ID r < i) (rows t) ->
    MinInt64 <= i ->
    i + Z.of_nat todo <= MaxInt64 ->
    generate_loop env todo st i sha256.New w = (r, w') ->
    exists (n : nat) (ev : list Event),
      (n <= todo)%nat /\
      db w' = Some {| columns := columns t; rows := rows t ++ generated_rows env i n |} /\
      trace w' = trace w ++ map insert_of (generated_rows env i n) ++ ev /\
      clock w' = clock w /\
      one_line ev /\
      match r with
      | Ok (i', h') => n = todo /\ i' = i + Z.of_nat todo /\ h' = sha256.New /\ ev = []
      | Halt _ => True
      end.
Proof.
  intros Hst. induction todo as [| todo IH]; intros i w r w' t Hdb Hlt Hlo Hhi Hrun.
  - cbn [generate_loop] in Hrun. unfold ret in Hrun. injection Hrun as <- <-.
    exists 0%nat, []. cbn [generated_rows seq map app]. rewrite !app_nil_r.
    destruct t as [c rs]. cbn [columns rows].
    split; [lia |]. split; [exact Hdb |]. split; [reflexivity |].
    split; [reflexivity |]. split; [left; reflexivity |]. repeat split. lia.
  - cbn [generate_loop] in Hrun. unfold bind at 1 in Hrun.
    destruct (generate_body env st i sha256.New w) as [[h1 | s] w1] eqn:Hbody;
      apply (generate_body_spec env st i w _ w1 Hst) in Hbody.
    + destruct Hbody as (-> & _ & t1 & Ht1 & Hfresh & ->).
      rewrite Hdb in Ht1. injection Ht1 as <-.
      rewrite incr_small in Hrun by lia.
      eapply IH in Hrun; [| reflexivity | | lia | lia].
      2:{ cbn [rows]. apply Forall_app. split.
          - eapply Forall_impl; [| exact Hlt]. cbn beta. intros; lia.
          - constructor; [| constructor]. unfold generated_row. cbn [ID]. lia. }
      destruct Hrun as (n & ev & Hn & Hdb' & Htr & Hck & Hev & Hr).
      exists (S n), ev. rewrite generated_rows_S.
      cbn [columns rows trace clock] in *.
      rewrite <- app_assoc in Hdb'. rewrite <- app_assoc in Htr.
      split; [lia |]. split; [exact Hdb' |]. split; [exact Htr |].
      split; [exact Hck |]. split; [exact Hev |].
      destruct r as [[i' h'] |]; [| exact I].
      destruct Hr as (-> & -> & -> & ->). repeat split. lia.
    + injection Hrun as <- <-.
      destruct Hbody as (Hdb1 & Hck & ev & Htr & Hev).
      exists 0%nat, ev. cbn [generated_rows seq map app]. rewrite app_nil_r.
      rewrite Hdb1, Hdb. destruct t as [c rs]. cbn [columns rows].
      split; [lia |]. auto 10.
Qed.

(** ** A run of generate *)

Lemma filter_insert_of (rs : list Row) :
  filter is_sql (map insert_of rs) = map insert_of rs.
Proof. exact (statements_insert_of rs). Qed.

Ltac sql_norm :=
  unfold statements;
  repeat (progress cbn [filter is_sql app] || rewrite filter_app
          || rewrite filter_insert_of);
  rewrite ?app_nil_r.

Ltac in_norm H :=
  repeat first [rewrite in_app_iff in H | progress cbn [In] in H].

(** Where a run that got past [sql.Open], [DROP] and [CREATE] leaves the
    store: a fresh table with the rows of the [n] passes that succeeded, every
    statement traced in order; [done] is sent only after the last pass, and
    only in such a run. *)
Lemma generate_run (env : Env) (flags : Flags) (d : option Table)
    (r : Res unit) (w' : World) :
  numRecs flags <= MaxInt64 ->
  generateCmd env flags (start_world d) = (r, w') ->
  (fault env CallOpen = None ->
   fault env (CallExec DropTable) = None ->
   fault env (CallExec CreateTable) = None ->
   exists n vac, (n <= Z.to_nat (numRecs flags))%nat /\
     db w' = Some {| columns := bench_columns; rows := generated_rows env 0 n |} /\
     statements (trace w') =
       Sql DropTable [] :: Sql CreateTable [] ::
         map insert_of (generated_rows env 0 n) ++ vac /\
     (vac = [] \/ vac = [Sql Vacuum []]) /\
     (In SendDone (trace w') -> n = Z.to_nat (numRecs flags)))
  /\ (In SendDone (trace w') ->
      fault env CallOpen = None /\ fault env (CallExec DropTable) = None /\
      fault env (CallExec CreateTable) = None).
Proof.
  intros Hmax. unfold generateCmd, start_world, sql_Open, defer, db_Close.
  run_step.
  destruct (fault env CallOpen) as [e |] eqn:Hopen; run_step.
  { intros [= <- <-]. cbn [trace app In]. split; [discriminate |]. intuition discriminate. }
  unfold db_Exec at 1 2.
  destruct (fault env (CallExec DropTable)) as [e |] eqn:Hdrop; run_step.
  { intros [= <- <-]. cbn [trace app In]. split; [discriminate |]. intuition discriminate. }
  cbn [run_sql app].
  destruct (fault env (CallExec CreateTable)) as [e |] eqn:Hcreate; run_step.
  { intros [= <- <-]. cbn [trace app In]. split; [discriminate |]. intuition discriminate. }
  cbn [run_sql app]. unfold db_Prepare.
  assert (Hst : exists st, (forall q, st = Some q -> q = InsertRow) /\
     match fault env (CallPrepare InsertRow) with
     | Some e => ret (None, Some e)
     | None => ret (Some InsertRow, None)
     end = ret (st, fault env (CallPrepare InsertRow))).
  { destruct (fault env (CallPrepare InsertRow)); eexists;
      (split; [| reflexivity]); congruence. }
  destruct Hst as (st & Hst & ->). run_step. cbn [app].
  match goal with |- context [generate_loop env ?n st 0 sha256.New ?w] =>
    destruct (generate_loop env n st 0 sha256.New w) as [[[i h] | s] w1] eqn:Hloop;
    (eapply (generate_loop_spec env st Hst) with (t := empty_bench) in Hloop;
      [ | reflexivity | apply Forall_nil | unfold MinInt64; lia
        | unfold MaxInt64 in *; lia ])
  end.
  - destruct Hloop as (n & ev & Hn & Hdb & Htr & Hck & Hev & -> & -> & -> & ->).
    destruct w1 as [db1 tr1 ck1].
    cbn [db trace clock empty_bench columns rows app] in *.
    subst db1 tr1 ck1. rewrite app_nil_r.
    assert (Hdone : forall (P : Prop) db2 tr2 vac,
      statements tr2 = Sql DropTable [] :: Sql CreateTable [] ::
         map insert_of (generated_rows env 0 (Z.to_nat (numRecs flags))) ++ vac ->
      vac = [] \/ vac = [Sql Vacuum []] ->
      db2 = Some {| columns := bench_columns;
                    rows := generated_rows env 0 (Z.to_nat (numRecs flags)) |} ->
      (None = None :> option string -> None = None :> option string ->
       None = None :> option string ->
       exists n vac, (n <= Z.to_nat (numRecs flags))%nat /\
         db2 = Some {| columns := bench_columns; rows := generated_rows env 0 n |} /\
         statements tr2 =
           Sql DropTable [] :: Sql CreateTable [] ::
             map insert_of (generated_rows env 0 n) ++ vac /\
         (vac = [] \/ vac = [Sql Vacuum []]) /\
         (P -> n = Z.to_nat (numRecs flags)))
      /\ (P -> None = None :> option string /\ None = None :> option string /\
               None = None :> option string)).
    { intros P db2 tr2 vac H1 H2 H3. split; [| auto]. intros _ _ _.
      exists (Z.to_nat (numRecs flags)), vac. auto. }
    destruct (int64_div _ (numRecs flags)) as [e | q]; run_step.
    { intros [= <- <-]. cbn [db trace]. apply Hdone with (vac := []); auto.
      sql_norm. reflexivity. }
    destruct (vacuum flags).
    2:{ intros [= <- <-]. cbn [db trace]. apply Hdone with (vac := []); auto.
        sql_norm. reflexivity. }
    unfold db_Exec. cbn [db trace clock].
    destruct (fault env (CallExec Vacuum)) as [e |]; run_step; cbn [run_sql]; run_step.
    { intros [= <- <-]. cbn [db trace]. apply Hdone with (vac := []); auto.
      sql_norm. reflexivity. }
    { intros [= <- <-]. cbn [db trace]. apply Hdone with (vac := [Sql Vacuum []]); auto.
      sql_norm. reflexivity. }
  - destruct Hloop as (n & ev & Hn & Hdb & Htr & Hck & Hev & _).
    destruct w1 as [db1 tr1 ck1].
    cbn [db trace clock empty_bench columns rows app] in *.
    subst db1 tr1 ck1.
    pose proof (SendDone_insert_of (generated_rows env 0 n)) as Hno1.
    pose proof (SendDone_one_line ev Hev) as Hno2.
    pose proof (statements_one_line ev Hev) as Hsql. unfold statements in Hsql.
    destruct s as [c | e]; intros [= <- <-]; cbn [db trace].
    + split.
      * intros _ _ _. exists n, []. split; [exact Hn |]. split; [reflexivity |].
        split; [sql_norm; rewrite Hsql, app_nil_r; reflexivity |].
        split; [auto |]. intros H. in_norm H. intuition discriminate.
      * intros H. in_norm H. intuition discriminate.
    + split.
      * intros _ _ _. exists n, []. split; [exact Hn |]. split; [reflexivity |].
        split; [sql_norm; rewrite Hsql, app_nil_r; reflexivity |].
        split; [auto |]. intros H. in_norm H. intuition discriminate.
      * intros H. in_norm H. intuition discriminate.
Qed.

(** ** A sample run *)

Example generate_two :
  db (snd (generateCmd sample_env (records 2) (start_world None))) =
  Some {| columns := bench_columns;
          rows := [ {| ID := 0; rand := "0000000000000000";
                       hash := "af5570f5a1810b7af78caf4bc70a660f0df51e42baf91d4de5b2328de0e83dfc" |};
                    {| ID := 1; rand := "000462d53c9baf07";
                       hash := "1db45e80c0ed34aa34bf11d3c6ac7762c12159559a999400dc86609fd89c9bd5" |} ] |}.
Proof. vm_compute. reflexivity. Qed.

(** ** generate: the rows written *)

(** C1. For every record count N >= 0 (an [int]), once generate has run its
    insert loop to the end (it has sent on [done], the statement after the
    loop), the table bench holds exactly N rows, their ids are 0..N-1 in
    that order, every stored hash is the hex form of the SHA-256 digest of
    the hex-decoded rand column, and the statements run against the store
    are DROP, CREATE and then one INSERT per row, in ascending id order
    (followed at most by the VACUUM). *)
Theorem generate_writes_rows (env : Env) (flags : Flags) (d : option Table)
    (r : Res unit) (w' : World) :
  0 <= numRecs flags <= MaxInt64 ->
  generateCmd env flags (start_world d) = (r, w') ->
  In SendDone (trace w') ->
  exists rs vac,
    db w' = Some {| columns := bench_columns; rows := rs |} /\
    Z.of_nat (List.length rs) = numRecs flags /\
    map ID rs = ids (Z.to_nat (numRecs flags)) /\
    Forall hash_matches rs /\
    statements (trace w') =
      Sql DropTable [] :: Sql CreateTable [] :: map insert_of rs ++ vac /\
    (vac = [] \/ vac = [Sql Vacuum []]).
Proof.
  intros [Hlo Hhi] Hrun Hdone.
  destruct (generate_run env flags d r w' Hhi Hrun) as [Hok Hsetup].
  destruct (Hsetup Hdone) as (Ho & Hd & Hc).
  destruct (Hok Ho Hd Hc) as (n & vac & _ & Hdb & Hsql & Hvac & Hn).
  rewrite (Hn Hdone) in *. clear Hn.
  exists (generated_rows env 0 (Z.to_nat (numRecs flags))), vac.
  split; [exact Hdb |]. split.
  { unfold generated_rows. rewrite length_map, length_seq. lia. }
  split; [apply generated_rows_ids |].
  split; [apply generated_rows_match |]. auto.
Qed.

Lemma generate_writes_rows_witness :
  exists rs vac,
    db (snd (generateCmd sample_env (records 3) (start_world None))) =
      Some {| columns := bench_columns; rows := rs |} /\
    Z.of_nat (List.length rs) = 3 /\
    map ID rs = ids 3 /\
    Forall hash_matches rs /\
    statements (trace (snd (generateCmd sample_env (records 3) (start_world None)))) =
      Sql DropTable [] :: Sql CreateTable [] :: map insert_of rs ++ vac /\
    (vac = [] \/ vac = [Sql Vacuum []]).
Proof.
  apply (generate_writes_rows sample_env (records 3) None
           (fst (generateCmd sample_env (records 3) (start_world None)))).
  - unfold MaxInt64. cbn. lia.
  - apply surjective_pairing.
  - vm_compute. do 12 right. left. reflexivity.
Defined.

(** ** generate: running it again *)



(** ** generate: a count that is not positive *)

(** C10. For every record count [numRecs <= 0], a run of generate that can
    reach the store still drops the table bench and creates it anew, whatever
    the store held: the table is left empty with the three columns, the
    statements run are DROP and CREATE and no INSERT (the loop body runs zero
    times).  Nothing on the way tests the count for being positive. *)
Theorem generate_nonpositive_recreates (env : Env) (flags : Flags)
    (d : option Table) (r : Res unit) (w' : World) :
  numRecs flags <= 0 ->
  fault env CallOpen = None ->
  fault env (CallExec DropTable) = None ->
  fault env (CallExec CreateTable) = None ->
  generateCmd env flags (start_world d) = (r, w') ->
  db w' = Some {| columns := bench_columns; rows := [] |} /\
  exists vac,
    statements (trace w') = Sql DropTable [] :: Sql CreateTable [] :: vac /\
    (vac = [] \/ vac = [Sql Vacuum []]).
Proof.
  intros Hn Ho Hd Hc Hrun.
  assert (Hhi : numRecs flags <= MaxInt64) by (unfold MaxInt64; lia).
  destruct (generate_run env flags d r w' Hhi Hrun) as [Hok _].
  destruct (Hok Ho Hd Hc) as (n & vac & Hle & Hdb & Hsql & Hvac & _).
  assert (n = 0%nat) as -> by lia.
  cbn [generated_rows seq map app] in *. split; [exact Hdb |].
  exists vac. auto.
Qed.

Lemma generate_nonpositive_recreates_witness :
  db (snd (generateCmd sample_env (records (-5)) (start_world (Some old_table)))) =
    Some {| columns := bench_columns; rows := [] |} /\
  exists vac,
    statements (trace (snd (generateCmd sample_env (records (-5))
                              (start_world (Some old_table))))) =
      Sql DropTable [] :: Sql CreateTable [] :: vac /\
    (vac = [] \/ vac = [Sql Vacuum []]).
Proof.
  apply (generate_nonpositive_recreates sample_env (records (-5)) (Some old_table)
           (fst (generateCmd sample_env (records (-5)) (start_world (Some old_table))))).
  - cbn. lia.
  - reflexivity.
  - reflexivity.
  - reflexivity.
  - apply surjective_pairing.
Defined.

(** ** The loop of bench *)

Lemma bench_body_scan_error (env : Env) (pre : time.Time) (k : nat) (r : Row)
    (s : BenchVars) (w : World) (e : string) :
  fault env (CallScan k) = Some e ->
  bench_body env pre k r s w = (Halt (Exit 1), log_line w e).
Proof. intros H. unfold bench_body. rewrite H. reflexivity. Qed.

Lemma bench_body_verdict (env : Env) (pre : time.Time) (k : nat) (r : Row)
    (s : BenchVars) (w : World) :
  fault env (CallScan k) = None ->
  bench_body env pre k r s w =
  match verdict r with
  | Skipped =>
      (Ok {| processed := processed s; hasher := sha256.New; once_done := true |},
       log_line (after_once env pre r s w) decode_message)
  | Verified =>
      (Ok {| processed := incr (processed s); hasher := sha256.New; once_done := true |},
       after_once env pre r s w)
  | Mismatch =>
      (Halt (Exit 1), log_line (after_once env pre r s w) mismatch_message)
  end.
Proof.
  intros H. unfold bench_body, verdict, after_once. rewrite H.
  unfold sha256.Sum, sha256.Write, sha256.Reset, sha256.New. cbn [app].
  destruct (once_done s); run_step;
    destruct (hex.DecodeString (rand r)) as [v [e |]]; run_step;
    try reflexivity;
    destruct (String.eqb _ (hash r)); reflexivity.
Qed.

Lemma bench_loop_cons (env : Env) (pre : time.Time) (r : Row) (rest : list Row)
    (k : nat) (s : BenchVars) (w : World) :
  fault env (CallNext k) = None ->
  bench_loop env pre (r :: rest) k s w =
  match bench_body env pre k r s (fetched w k) with
  | (Ok s', w1) => bench_loop env pre rest (S k) s' w1
  | (Halt st, w1) => (Halt st, w1)
  end.
Proof. intros H. cbn [bench_loop]. rewrite H. reflexivity. Qed.

Lemma bench_loop_iteration_error (env : Env) (pre : time.Time)
    (pending : list Row) (k : nat) (s : BenchVars) (w : World) (e : string) :
  fault env (CallNext k) = Some e ->
  bench_loop env pre pending k s w = (Ok (s, Some e), w).
Proof. intros H. destruct pending; cbn [bench_loop]; rewrite H; reflexivity. Qed.

Lemma after_once_db (env : Env) (pre : time.Time) (r : Row) (s : BenchVars) (w : World) :
  db (after_once env pre r s w) = db w.
Proof. unfold after_once. destruct (once_done s); reflexivity. Qed.

Lemma count_verified_cons (r : Row) (rs : list Row) :
  count_verified (r :: rs) =
  (match verdict r with Verified => 1 | _ => 0 end) + count_verified rs.
Proof.
  unfold count_verified. cbn [filter].
  destruct (verdict r); cbn [List.length]; lia.
Qed.

Lemma count_verified_bounds (rs : list Row) :
  0 <= count_verified rs <= Z.of_nat (List.length rs).
Proof.
  unfold count_verified. pose proof (filter_length_le
    (fun r => match verdict r with Verified => true | _ => false end) rs). lia.
Qed.

(** How the loop can end, read off its result: it ran through every row
    (no call failed, no hash differed, the counter went up by the number of
    verified rows), or [rows.Next] failed, or the process exited with status
    1.  The table is never written. *)
Lemma bench_loop_result (env : Env) (pre : time.Time) :
  forall (pending : list Row) (k : nat) (s : BenchVars) (w : World)
         (res : Res (BenchVars * option string)) (w1 : World),
    bench_loop env pre pending k s w = (res, w1) ->
    db w1 = db w /\
    match res with
    | Ok (s', None) =>
        Forall (fun r => verdict r <> Mismatch) pending /\
        (forall j, (j <= List.length pending)%nat -> fault env (CallNext (k + j)) = None) /\
        (forall j, (j < List.length pending)%nat -> fault env (CallScan (k + j)) = None) /\
        (0 <= processed s ->
         processed s + Z.of_nat (List.length pending) <= MaxInt64 ->
         processed s' = processed s + count_verified pending)
    | Ok (s', Some e) =>
        exists j, (j <= List.length pending)%nat /\ fault env (CallNext (k + j)) = Some e
    | Halt st => st = Exit 1
    end.
Proof.
  induction pending as [| r rest IH]; intros k s w res w1 Hrun.
  - cbn [bench_loop] in Hrun.
    destruct (fault env (CallNext k)) as [e |] eqn:Hnext;
      unfold ret in Hrun; injection Hrun as <- <-; (split; [reflexivity |]).
    + exists 0%nat. rewrite Nat.add_0_r. auto.
    + split; [constructor |]. split.
      { intros j Hj. cbn [List.length] in Hj. replace j with 0%nat by lia.
        rewrite Nat.add_0_r. exact Hnext. }
      split. { intros j Hj. cbn [List.length] in Hj. lia. }
      intros _ _. unfold count_verified. cbn. lia.
  - destruct (fault env (CallNext k)) as [e |] eqn:Hnext.
    { rewrite (bench_loop_iteration_error env pre _ k s w e Hnext) in Hrun.
      injection Hrun as <- <-. split; [reflexivity |].
      exists 0%nat. rewrite Nat.add_0_r. split; [lia | exact Hnext]. }
    rewrite (bench_loop_cons env pre r rest k s w Hnext) in Hrun.
    destruct (fault env (CallScan k)) as [e |] eqn:Hscan.
    { rewrite (bench_body_scan_error env pre k r s _ e Hscan) in Hrun.
      injection Hrun as <- <-. split; reflexivity. }
    rewrite (bench_body_verdict env pre k r s _ Hscan) in Hrun.
    destruct (verdict r) eqn:Hv.
    + apply IH in Hrun. destruct Hrun as [Hdb Hres]. split.
      { rewrite Hdb. unfold log_line. cbn [db]. rewrite after_once_db. reflexivity. }
      destruct res as [[s' [e |]] | st]; [| | exact Hres].
      * destruct Hres as (j & Hj & He). exists (S j). cbn [List.length].
        split; [lia |]. replace (k + S j)%nat with (S k + j)%nat by lia. exact He.
      * destruct Hres as (Hall & Hn & Hs & Hcount). cbn [processed] in Hcount.
        split. { constructor; [rewrite Hv; discriminate | exact Hall]. }
        split. { intros j Hj. destruct j as [| j].
                 - rewrite Nat.add_0_r. exact Hnext.
                 - replace (k + S j)%nat with (S k + j)%nat by lia.
                   apply Hn. cbn [List.length] in Hj. lia. }
        split. { intros j Hj. destruct j as [| j].
                 - rewrite Nat.add_0_r. exact Hscan.
                 - replace (k + S j)%nat with (S k + j)%nat by lia.
                   apply Hs. cbn [List.length] in Hj. lia. }
        intros H0 Hmax. cbn [List.length] in Hmax.
        rewrite count_verified_cons, Hv. rewrite Hcount; lia.
    + apply IH in Hrun. destruct Hrun as [Hdb Hres]. split.
      { rewrite Hdb, after_once_db. reflexivity. }
      destruct res as [[s' [e |]] | st]; [| | exact Hres].
      * destruct Hres as (j & Hj & He). exists (S j). cbn [List.length].
        split; [lia |]. replace (k + S j)%nat with (S k + j)%nat by lia. exact He.
      * destruct Hres as (Hall & Hn & Hs & Hcount). cbn [processed] in Hcount.
        split. { constructor; [rewrite Hv; discriminate | exact Hall]. }
        split. { intros j Hj. destruct j as [| j].
                 - rewrite Nat.add_0_r. exact Hnext.
                 - replace (k + S j)%nat with (S k + j)%nat by lia.
                   apply Hn. cbn [List.length] in Hj. lia. }
        split. { intros j Hj. destruct j as [| j].
                 - rewrite Nat.add_0_r. exact Hscan.
                 - replace (k + S j)%nat with (S k + j)%nat by lia.
                   apply Hs. cbn [List.length] in Hj. lia. }
        intros H0 Hmax. cbn [List.length] in Hmax.
        rewrite count_verified_cons, Hv.
        rewrite incr_small in Hcount by (unfold MinInt64, MaxInt64 in *; lia).
        rewrite Hcount; lia.
    + injection Hrun as <- <-. split; [| reflexivity].
      unfold log_line. cbn [db]. rewrite after_once_db. reflexivity.
Qed.

(** ** A run of bench *)

(** A run of bench, case by case. *)
Lemma bench_run (env : Env) (flags : Flags) (d : option Table)
    (res : Res unit) (w' : World) :
  benchCmd env flags (start_world d) = (res, w') ->
  match fault env CallOpen with
  | Some e =>
      res = Halt (Exit 1) /\
      w' = {| db := d;
              trace := [Log "Running benchmark" [];
                        Print "Error while opening database '%s': %s"
                          [AStr (dbPath flags); AStr e]];
              clock := 0 |}
  | None =>
      match fault env (CallQuery SelectAll), d with
      | Some e, _ =>
          res = Halt (Exit 1) /\
          w' = {| db := d; trace := [Log "Running benchmark" []; Log e []]; clock := 1 |}
      | None, None =>
          res = Halt (Exit 1) /\
          w' = {| db := d;
                  trace := [Log "Running benchmark" []; Log "no such table: bench" []];
                  clock := 1 |}
      | None, Some t =>
          exists lr wl,
            bench_loop env (now env 3) (rows t) 0 bench_start (bench_ready env t) = (lr, wl) /\
            match lr with
            | Halt st => res = Halt st /\ w' = wl
            | Ok (s, Some e) =>
                res = Halt (Exit 1) /\
                db w' = db wl /\
                trace w' = trace wl ++ bench_summary env wl (processed s) ++ [Log e []]
            | Ok (s, None) =>
                let e := time.Sub (now env (clock wl)) (now env 0) in
                db w' = db wl /\
                match int64_div (time.Nanoseconds e) (processed s) with
                | inl err =>
                    res = Halt (Panic err) /\
                    trace w' = trace wl ++ bench_summary env wl (processed s)
                                 ++ bench_closes env
                | inr avg =>
                    res = Ok tt /\
                    clock w' = S (S (clock wl)) /\
                    trace w' = trace wl ++ bench_summary env wl (processed s)
                                 ++ [Log average_format [ADur avg; ADur e]]
                                 ++ bench_closes env
                end
            end
      end
  end.
Proof.
  unfold benchCmd, start_world, sql_Open, defer, db_Close, rows_Close, db_Query.
  run_step.
  destruct (fault env CallOpen) as [e |]; run_step.
  { intros [= <- <-]. split; reflexivity. }
  destruct (fault env (CallQuery SelectAll)) as [e |]; run_step.
  { intros [= <- <-]. destruct d; split; reflexivity. }
  destruct d as [t |]; run_step.
  2:{ intros [= <- <-]. split; reflexivity. }
  cbn [app]. fold (bench_ready env t). fold bench_start.
  destruct (bench_loop env (now env 3) (rows t) 0 bench_start (bench_ready env t))
    as [[[s [e |]] | st] wl] eqn:Hloop; run_step.
  - intros [= <- <-]. exists (Ok (s, Some e)), wl. split; [reflexivity |].
    cbn [db trace]. split; [reflexivity |]. split; [reflexivity |].
    unfold bench_summary. rewrite <- !app_assoc. reflexivity.
  - intros Hrun. exists (Ok (s, None)), wl. split; [reflexivity |].
    cbv zeta. unfold time.Nanoseconds in *.
    destruct (int64_div (time.Sub (now env (clock wl)) (now env 0)) (processed s))
      as [err | avg]; injection Hrun as <- <-; cbn [db trace clock];
      repeat (split; [reflexivity |]);
      unfold bench_summary, bench_closes; rewrite <- !app_assoc; reflexivity.
  - destruct st as [c | err]; intros [= <- <-].
    + exists (Halt (Exit c)), wl. auto.
    + pose proof (bench_loop_result env (now env 3) _ _ _ _ _ _ Hloop) as [_ H].
      discriminate H.
Qed.

(** Rows that are verified or skipped take the loop to the rows after them:
    only rows [k], ..., [k + n - 1] are fetched on the way, and the table is
    left alone. *)
Lemma bench_loop_prefix (env : Env) (pre : time.Time) :
  forall (good rest : list Row) (k : nat) (s : BenchVars) (w : World),
    (forall j, (j < List.length good)%nat ->
       fault env (CallNext (k + j)) = None /\ fault env (CallScan (k + j)) = None) ->
    Forall (fun r => verdict r <> Mismatch) good ->
    exists s1 w1 ev,
      bench_loop env pre (good ++ rest) k s w =
        bench_loop env pre rest (k + List.length good) s1 w1 /\
      db w1 = db w /\ trace w1 = trace w ++ ev /\
      (forall j, In (Next j) ev -> (j < k + List.length good)%nat) /\
      ~ In SendDone ev.
Proof.
  induction good as [| r good IH]; intros rest k s w Hf Hgood.
  - exists s, w, []. cbn [app List.length]. rewrite Nat.add_0_r, app_nil_r.
    repeat split; auto. intros j [].
  - destruct (Hf 0%nat) as [Hnext Hscan]; [cbn [List.length]; lia |].
    rewrite Nat.add_0_r in Hnext, Hscan.
    inversion Hgood as [| r' good' Hr Hrest]; subst r' good'.
    cbn [app]. rewrite (bench_loop_cons env pre r _ k s w Hnext).
    rewrite (bench_body_verdict env pre k r s _ Hscan).
    assert (Hw : forall f, exists ev0,
      trace (log_line (after_once env pre r s (fetched w k)) f) = trace w ++ Next k :: ev0 ++ [Log f []]
      /\ trace (after_once env pre r s (fetched w k)) = trace w ++ Next k :: ev0
      /\ (forall j, ~ In (Next j) ev0) /\ ~ In SendDone ev0).
    { intros f. unfold log_line, after_once, fetched.
      destruct (once_done s); cbn [trace db clock].
      - exists []. rewrite <- app_assoc. cbn [app]. repeat split; auto.
      - eexists [Log first_row_format _]. rewrite <- !app_assoc. cbn [app].
        repeat split; try reflexivity.
        + intros j [H | []]. discriminate H.
        + intros [H | []]. discriminate H. }
    assert (Hf' : forall j, (j < List.length good)%nat ->
       fault env (CallNext (S k + j)) = None /\ fault env (CallScan (S k + j)) = None).
    { intros j Hj. replace (S k + j)%nat with (k + S j)%nat by lia.
      apply Hf. cbn [List.length]. lia. }
    destruct (verdict r) eqn:Hv; [| | congruence].
    + destruct (IH rest (S k)
                  {| processed := processed s; hasher := sha256.New; once_done := true |}
                  (log_line (after_once env pre r s (fetched w k)) decode_message)
                  Hf' Hrest) as (s1 & w1 & ev & Heq & Hdb & Htr & Hnx & Hsd).
      destruct (Hw decode_message) as (ev0 & Ht1 & _ & Hn0 & Hs0).
      exists s1, w1, (Next k :: ev0 ++ [Log decode_message []] ++ ev).
      cbn [List.length]. replace (k + S (List.length good))%nat
        with (S k + List.length good)%nat by lia.
      split; [exact Heq |]. split.
      { rewrite Hdb. unfold log_line. cbn [db]. rewrite after_once_db. reflexivity. }
      split. { rewrite Htr, Ht1, <- !app_assoc. cbn [app]. rewrite <- !app_assoc. reflexivity. }
      split.
      * intros j Hj. cbn [In] in Hj. rewrite !in_app_iff in Hj. cbn [In] in Hj.
        destruct Hj as [Hj | [Hj | [[Hj | []] | Hj]]].
        -- injection Hj as <-. lia.
        -- destruct (Hn0 j Hj).
        -- discriminate Hj.
        -- apply Hnx, Hj.
      * intros Hj. cbn [In] in Hj. rewrite !in_app_iff in Hj. cbn [In] in Hj.
        destruct Hj as [Hj | [Hj | [[Hj | []] | Hj]]]; try discriminate Hj; tauto.
    + destruct (IH rest (S k)
                  {| processed := incr (processed s); hasher := sha256.New; once_done := true |}
                  (after_once env pre r s (fetched w k))
                  Hf' Hrest) as (s1 & w1 & ev & Heq & Hdb & Htr & Hnx & Hsd).
      destruct (Hw decode_message) as (ev0 & _ & Ht1 & Hn0 & Hs0).
      exists s1, w1, (Next k :: ev0 ++ ev).
      cbn [List.length]. replace (k + S (List.length good))%nat
        with (S k + List.length good)%nat by lia.
      split; [exact Heq |]. split.
      { rewrite Hdb, after_once_db. reflexivity. }
      split. { rewrite Htr, Ht1, <- !app_assoc. cbn [app]. reflexivity. }
      split.
      * intros j Hj. cbn [In] in Hj. rewrite !in_app_iff in Hj.
        destruct Hj as [Hj | [Hj | Hj]].
        -- injection Hj as <-. lia.
        -- destruct (Hn0 j Hj).
        -- apply Hnx, Hj.
      * intros Hj. cbn [In] in Hj. rewrite !in_app_iff in Hj.
        destruct Hj as [Hj | [Hj | Hj]]; try discriminate Hj; tauto.
Qed.

(** ** bench: a stored hash that does not match *)

(** C2. When the loop of bench reaches a row whose rand decodes and whose
    stored hash is not the hex SHA-256 digest of the decoded value, the run
    ends there through [log.Fatal]: exit status 1, the line about the
    mismatch is the last thing the process does, no later row is fetched,
    the summary is never reached ([done] is not sent), and the table is
    untouched.  There is no path on which the mismatch is only logged. *)
Theorem bench_mismatch_is_fatal (env : Env) (flags : Flags) (t : Table)
    (before : list Row) (r : Row) (after : list Row) (res : Res unit) (w' : World) :
  rows t = before ++ r :: after ->
  verdict r = Mismatch ->
  fault env CallOpen = None ->
  fault env (CallQuery SelectAll) = None ->
  (forall j, (j <= List.length before)%nat ->
     fault env (CallNext j) = None /\ fault env (CallScan j) = None) ->
  Forall (fun x => verdict x <> Mismatch) before ->
  benchCmd env flags (start_world (Some t)) = (res, w') ->
  res = Halt (Exit 1) /\
  exit_status res = 1 /\
  (exists tr, trace w' = tr ++ [Log mismatch_message []]) /\
  (forall j, In (Next j) (trace w') -> (j <= List.length before)%nat) /\
  ~ In SendDone (trace w') /\
  db w' = Some t.
Proof.
  intros Hrows Hbad Hopen Hquery Hfaults Hbefore Hrun.
  apply bench_run in Hrun. rewrite Hopen, Hquery in Hrun.
  destruct Hrun as (lr & wl & Hloop & Hres).
  destruct (bench_loop_prefix env (now env 3) before (r :: after) 0 bench_start
              (bench_ready env t)) as (s1 & w1 & ev & Heq & Hdb & Htr & Hnx & Hsd).
  { intros j Hj. apply Hfaults. lia. }
  { exact Hbefore. }
  destruct (Hfaults (List.length before) (le_n _)) as [Hnext Hscan].
  rewrite Hrows, Heq in Hloop. cbn [Nat.add] in Hloop.
  rewrite (bench_loop_cons env _ r after _ s1 w1 Hnext) in Hloop.
  rewrite (bench_body_verdict env _ _ r s1 _ Hscan), Hbad in Hloop.
  injection Hloop as <- <-. destruct Hres as [-> ->].
  split; [reflexivity |]. split; [reflexivity |].
  unfold log_line, after_once, fetched. cbn [Nat.add] in Hnx.
  destruct (once_done s1); cbn [db trace clock]; rewrite Htr.
  - split; [eexists; reflexivity |]. split; [| split; [| exact Hdb]].
    + intros j Hj. unfold bench_ready in Hj. in_norm Hj.
      destruct Hj as [[[Hj | Hj] | Hj] | Hj].
      * repeat (destruct Hj as [Hj | Hj]; [discriminate Hj |]). destruct Hj.
      * apply Nat.lt_le_incl, Hnx, Hj.
      * destruct Hj as [Hj | []]. injection Hj as <-. lia.
      * destruct Hj as [Hj | []]. discriminate Hj.
    + intros Hj. unfold bench_ready in Hj. in_norm Hj.
      destruct Hj as [[[Hj | Hj] | Hj] | Hj].
      * repeat (destruct Hj as [Hj | Hj]; [discriminate Hj |]). destruct Hj.
      * exact (Hsd Hj).
      * destruct Hj as [Hj | []]. discriminate Hj.
      * destruct Hj as [Hj | []]. discriminate Hj.
  - split; [eexists; reflexivity |]. split; [| split; [| exact Hdb]].
    + intros j Hj. unfold bench_ready in Hj. in_norm Hj.
      destruct Hj as [[[[Hj | Hj] | Hj] | Hj] | Hj].
      * repeat (destruct Hj as [Hj | Hj]; [discriminate Hj |]). destruct Hj.
      * apply Nat.lt_le_incl, Hnx, Hj.
      * destruct Hj as [Hj | []]. injection Hj as <-. lia.
      * destruct Hj as [Hj | []]. discriminate Hj.
      * destruct Hj as [Hj | []]. discriminate Hj.
    + intros Hj. unfold bench_ready in Hj. in_norm Hj.
      destruct Hj as [[[[Hj | Hj] | Hj] | Hj] | Hj].
      * repeat (destruct Hj as [Hj | Hj]; [discriminate Hj |]). destruct Hj.
      * exact (Hsd Hj).
      * destruct Hj as [Hj | []]. discriminate Hj.
      * destruct Hj as [Hj | []]. discriminate Hj.
      * destruct Hj as [Hj | []]. discriminate Hj.
Qed.

Example verdicts :
  map verdict [good_row_0; good_row_1; unhex_row; altered_row] =
  [Verified; Verified; Skipped; Mismatch].
Proof. vm_compute. reflexivity. Qed.

Lemma bench_mismatch_is_fatal_witness :
  fst (benchCmd sample_env default_flags (start_world (Some altered_table))) = Halt (Exit 1) /\
  exit_status (fst (benchCmd sample_env default_flags (start_world (Some altered_table)))) = 1 /\
  (exists tr, trace (snd (benchCmd sample_env default_flags (start_world (Some altered_table))))
              = tr ++ [Log mismatch_message []]) /\
  (forall j, In (Next j) (trace (snd (benchCmd sample_env default_flags
                                        (start_world (Some altered_table))))) ->
             (j <= 2)%nat) /\
  ~ In SendDone (trace (snd (benchCmd sample_env default_flags
                               (start_world (Some altered_table))))) /\
  db (snd (benchCmd sample_env default_flags (start_world (Some altered_table))))
    = Some altered_table.
Proof.
  apply (bench_mismatch_is_fatal sample_env default_flags altered_table
           [good_row_0; unhex_row] altered_row [good_row_1]).
  - reflexivity.
  - vm_compute. reflexivity.
  - reflexivity.
  - reflexivity.
  - intros j _. split; reflexivity.
  - repeat constructor; vm_compute; discriminate.
  - apply surjective_pairing.
Defined.

(** ** bench: a rand column that is no hex string *)



Example bench_skipping :
  fst (benchCmd sample_env default_flags (start_world (Some skipping_table))) = Ok tt /\
  trace (snd (benchCmd sample_env default_flags (start_world (Some skipping_table)))) =
  [Log "Running benchmark" []; Sql SelectAll [];
   Log "Time after query: %s" [ADur 1000000]; Log "Beginning loop" []; Go;
   Next 0;
   Log first_row_format
     [AInt 0; AStr (rand good_row_0); AStr (hash good_row_0); ADur 1000000];
   Next 1; Log decode_message [];
   Next 2;
   SendDone; Log processed_format [AInt 2];
   Log "Finished loop after %s" [ADur 4000000];
   Log average_format [ADur 2500000; ADur 5000000];
   Closed CallRowsClose None; Closed CallDBClose None].
Proof. vm_compute. split; reflexivity. Qed.

(** ** bench: the average at the end *)

Lemma Sub_range (t u : time.Time) : MinInt64 <= time.Sub t u <= MaxInt64.
Proof. unfold time.Sub, MinInt64, MaxInt64. lia. Qed.

Lemma quot_range (a b : Z) :
  MinInt64 <= a <= MaxInt64 -> 0 < b -> MinInt64 <= Z.quot a b <= MaxInt64.
Proof.
  intros Ha Hb. assert (Hnz : b <> 0) by lia.
  destruct (Z.le_gt_cases 0 a) as [H0 | H0].
  - pose proof (Z.quot_pos a b H0 Hb). pose proof (Z.mul_quot_le a b H0 Hnz).
    unfold MinInt64, MaxInt64 in *. nia.
  - assert (Hn : 0 <= - a) by lia.
    pose proof (Z.quot_pos (- a) b Hn Hb) as H1.
    pose proof (Z.mul_quot_le (- a) b Hn Hnz) as H2.
    rewrite Z.quot_opp_l in H1, H2 by lia.
    unfold MinInt64, MaxInt64 in *. nia.
Qed.

Lemma int64_div_inr (a b q : Z) :
  int64_div a b = inr q -> b <> 0 /\ q = wrap64 (Z.quot a b).
Proof.
  unfold int64_div. destruct (Z.eqb_spec b 0) as [-> | Hb]; [discriminate |].
  intros [= <-]. auto.
Qed.

(** C8. When bench runs to its end, the figure in its last line ("Average
    ... per record") is the total elapsed time, from the reading of the clock
    before the query to the reading after the loop, the same duration the
    line gives as "overall", divided (integer division) by the number of rows
    that were verified: the rows whose rand decoded and whose hash matched.
    That number is also the count the run has just logged; rows skipped for
    a rand that is no hex string are read but not counted. *)
Theorem bench_average_over_verified (env : Env) (flags : Flags) (t : Table)
    (w' : World) :
  Z.of_nat (List.length (rows t)) <= MaxInt64 ->
  benchCmd env flags (start_world (Some t)) = (Ok tt, w') ->
  let e := time.Sub (now env (clock w' - 2)) (now env 0) in
  let n := count_verified (rows t) in
  0 < n /\
  exists tr el,
    trace w' =
      tr ++ [SendDone; Log processed_format [AInt n];
             Log "Finished loop after %s" [ADur el];
             Log average_format [ADur (Z.quot e n); ADur e]]
         ++ bench_closes env.
Proof.
  intros Hlen Hrun. cbv zeta. apply bench_run in Hrun.
  destruct (fault env CallOpen) as [x |]; [destruct Hrun as [H _]; discriminate H |].
  destruct (fault env (CallQuery SelectAll)) as [x |];
    [destruct Hrun as [H _]; discriminate H |].
  destruct Hrun as (lr & wl & Hloop & Hres).
  apply bench_loop_result in Hloop. destruct Hloop as [_ Hloop].
  destruct lr as [[s [x |]] | st].
  - destruct Hres as [H _]. discriminate H.
  - destruct Hloop as (_ & _ & _ & Hcount).
    cbn [bench_start processed] in Hcount.
    rewrite Hcount in Hres by lia. rewrite Z.add_0_l in Hres.
    cbv zeta in Hres. destruct Hres as [_ Hres]. unfold time.Nanoseconds in Hres.
    destruct (int64_div _ (count_verified (rows t))) as [err | avg] eqn:Hdiv;
      [destruct Hres as [H _]; discriminate H |].
    destruct Hres as (_ & Hck & Htr).
    apply int64_div_inr in Hdiv. destruct Hdiv as [Hnz ->].
    pose proof (count_verified_bounds (rows t)) as Hb.
    assert (Hpos : 0 < count_verified (rows t)) by lia.
    rewrite wrap64_small in Htr by (apply quot_range; [apply Sub_range | exact Hpos]).
    split; [exact Hpos |].
    replace (clock w' - 2)%nat with (clock wl) by lia.
    exists (trace wl), (time.Sub (now env (S (clock wl))) (now env 2)).
    rewrite Htr. unfold bench_summary. cbn [app]. reflexivity.
  - destruct Hres as [H _]. subst st. discriminate H.
Qed.

Lemma bench_average_over_verified_witness :
  0 < count_verified (rows skipping_table) /\
  exists tr el,
    trace (snd (benchCmd sample_env default_flags (start_world (Some skipping_table)))) =
      tr ++ [SendDone; Log processed_format [AInt (count_verified (rows skipping_table))];
             Log "Finished loop after %s" [ADur el];
             Log average_format
               [ADur (Z.quot
                        (time.Sub
                           (now sample_env
                              (clock (snd (benchCmd sample_env default_flags
                                             (start_world (Some skipping_table)))) - 2))
                           (now sample_env 0))
                        (count_verified (rows skipping_table)));
                ADur (time.Sub
                        (now sample_env
                           (clock (snd (benchCmd sample_env default_flags
                                          (start_world (Some skipping_table)))) - 2))
                        (now sample_env 0))]]
         ++ bench_closes sample_env.
Proof.
  apply (bench_average_over_verified sample_env default_flags skipping_table).
  - unfold MaxInt64. cbn. lia.
  - vm_compute. reflexivity.
Defined.

Example average_not_over_rows_read :
  count_verified (rows skipping_table) = 2 /\
  Z.of_nat (List.length (rows skipping_table)) = 3 /\
  In (Log average_format [ADur (Z.quot 5000000 2); ADur 5000000])
     (trace (snd (benchCmd sample_env default_flags (start_world (Some skipping_table))))) /\
  Z.quot 5000000 2 <> Z.quot 5000000 3.
Proof.
  split; [vm_compute; reflexivity |]. split; [reflexivity |].
  split; [vm_compute; tauto | vm_compute; discriminate].
Qed.

(** ** bench: errors of the store *)




Example bench_close_failure_run :
  fst (benchCmd close_fails default_flags (start_world (Some two_rows))) = Ok tt /\
  exit_status (fst (benchCmd close_fails default_flags (start_world (Some two_rows)))) = 0 /\
  In (Closed CallRowsClose (Some "disk I/O error"))
     (trace (snd (benchCmd close_fails default_flags (start_world (Some two_rows))))).
Proof. vm_compute. intuition. Qed.



(** ** No records *)

Lemma Z_to_nat_nonpos (n : Z) : n <= 0 -> Z.to_nat n = 0%nat.
Proof. lia. Qed.

(** C4 fails on the code.  With [--records 0], a run of generate that gets
    through its setup logs "0/0 ( NaN%) written" and then panics on the
    integer division [dur.Nanoseconds()/int64(numRecs)]; bench on an empty
    table logs "0 rows processed" and then panics on [e.Nanoseconds()/i].
    Both end with a run-time error (exit status 2), neither returns. *)
Theorem zero_records_divide_by_zero (env : Env) (flags : Flags)
    (d : option Table) (t : Table) :
  fault env CallOpen = None ->
  (numRecs flags = 0 ->
   fault env (CallExec DropTable) = None ->
   fault env (CallExec CreateTable) = None ->
   fst (generateCmd env flags (start_world d)) = Halt (Panic DivideByZero) /\
   In (Log written_format
         [AInt 1; AInt 0; AInt 1; AInt 0; AFloat FNaN;
          ADur (time.Sub (now env 1) (now env 0))])
      (trace (snd (generateCmd env flags (start_world d)))))
  /\
  (rows t = [] ->
   fault env (CallQuery SelectAll) = None ->
   fault env (CallNext 0) = None ->
   fst (benchCmd env flags (start_world (Some t))) = Halt (Panic DivideByZero) /\
   In (Log processed_format [AInt 0])
      (trace (snd (benchCmd env flags (start_world (Some t)))))).
Proof.
  intros Hopen. split.
  - intros Hn Hdrop Hcreate. destruct flags as [path n v ls]. cbn [numRecs] in Hn. subst n.
    unfold generateCmd, start_world, sql_Open, defer, db_Close, db_Exec, db_Prepare.
    cbn [numRecs dbPath vacuum]. rewrite Hopen, Hdrop, Hcreate.
    destruct (fault env (CallPrepare InsertRow)); run_step; cbn [run_sql app];
      run_step; cbn [Z.to_nat generate_loop]; run_step; cbn [app];
      change (int64_div _ 0) with (@inl RuntimeError Z DivideByZero);
      cbn [fst snd trace];
      (split; [reflexivity |]); cbn [In app];
      do 10 right; left; reflexivity.
  - intros Hrows Hquery Hnext.
    destruct (benchCmd env flags (start_world (Some t))) as [res w'] eqn:Hrun.
    cbn [fst snd]. apply bench_run in Hrun. rewrite Hopen, Hquery, Hrows in Hrun.
    destruct Hrun as (lr & wl & Hloop & Hres).
    cbn [bench_loop] in Hloop. rewrite Hnext in Hloop. unfold ret in Hloop.
    injection Hloop as <- <-. cbv zeta in Hres. cbn [bench_start processed] in Hres.
    change (int64_div _ 0) with (@inl RuntimeError Z DivideByZero) in Hres.
    destruct Hres as (_ & -> & ->). split; [reflexivity |].
    unfold bench_ready, bench_summary. cbn [trace app In]. tauto.
Qed.

Lemma zero_records_divide_by_zero_witness :
  fst (generateCmd sample_env (records 0) (start_world None)) = Halt (Panic DivideByZero) /\
  exit_status (fst (generateCmd sample_env (records 0) (start_world None))) = 2 /\
  fst (benchCmd sample_env (records 0) (start_world (Some empty_bench))) =
    Halt (Panic DivideByZero) /\
  exit_status (fst (benchCmd sample_env (records 0) (start_world (Some empty_bench)))) = 2.
Proof.
  destruct (zero_records_divide_by_zero sample_env (records 0) None empty_bench eq_refl)
    as [Hgen Hbench].
  destruct (Hgen eq_refl eq_refl eq_refl) as [Hg _].
  destruct (Hbench eq_refl eq_refl eq_refl) as [Hb _].
  rewrite Hg, Hb. repeat split; reflexivity.
Defined.

(** ** generate: a statement that cannot be prepared *)

(** C6 fails on the code for [db.Prepare], whose error is dropped
    ([st, _ := db.Prepare(...)]): the run goes on with a nil statement.  With a
    positive count the first [st.Exec] panics on the nil pointer; with count 0
    the run reaches the division by zero; with a negative count it returns
    normally.  In no case does it end through [log.Fatalf]. *)
Theorem prepare_failure_not_fatal (env : Env) (flags : Flags) (d : option Table)
    (e : string) :
  fault env (CallPrepare InsertRow) = Some e ->
  fault env CallOpen = None ->
  fault env (CallExec DropTable) = None ->
  fault env (CallExec CreateTable) = None ->
  fault env (CallRead 0) = None ->
  fst (generateCmd env flags (start_world d)) =
    if 0 <? numRecs flags then Halt (Panic NilDereference)
    else if numRecs flags =? 0 then Halt (Panic DivideByZero)
    else Ok tt.
Proof.
  intros Hprep Hopen Hdrop Hcreate Hread.
  unfold generateCmd, start_world, sql_Open, defer, db_Close, db_Exec, db_Prepare.
  rewrite Hopen, Hdrop, Hcreate, Hprep. run_step. cbn [run_sql app]. run_step.
  destruct (Z.ltb_spec 0 (numRecs flags)) as [Hpos | Hneg].
  - destruct (Z.to_nat (numRecs flags)) as [| m] eqn:Hm; [lia |].
    cbn [generate_loop]. unfold generate_body, rand_Read, st_Exec. rewrite Hread.
    run_step. reflexivity.
  - rewrite (Z_to_nat_nonpos _ Hneg). cbn [generate_loop]. run_step.
    unfold int64_div. destruct (Z.eqb_spec (numRecs flags) 0) as [Hz | Hnz]; run_step.
    + reflexivity.
    + destruct (vacuum flags); [| reflexivity].
      destruct (fault env (CallExec Vacuum)); run_step; cbn [run_sql]; run_step;
        reflexivity.
Qed.

Lemma prepare_failure_not_fatal_witness :
  fst (generateCmd prepare_fails (records 3) (start_world None)) = Halt (Panic NilDereference) /\
  fst (generateCmd prepare_fails (records (-1)) (start_world None)) = Ok tt.
Proof.
  split.
  - exact (prepare_failure_not_fatal prepare_fails (records 3) None _
             eq_refl eq_refl eq_refl eq_refl eq_refl).
  - exact (prepare_failure_not_fatal prepare_fails (records (-1)) None _
             eq_refl eq_refl eq_refl eq_refl eq_refl).
Defined.

Example prepare_failure_trace :
  trace (snd (generateCmd prepare_fails (records 3) (start_world None))) =
  [Log "Generating %d records" [AInt 3]; Log "Opening database" [];
   Log "Dropping table 'bench' if already present" []; Sql DropTable [];
   Log "(Re-)creating table 'bench'" []; Sql CreateTable [];
   Log "Setting up the environment" []; Go; Log "Starting inserts" [];
   Closed CallDBClose None].
Proof. vm_compute. reflexivity. Qed.

(** ** The interval of the progress lines *)



(** The goroutine of bench logs one line for each tick before [done] and
    nothing after it. *)
Lemma bench_progress_until_done (before after : list Wake) :
  Forall (fun x => x <> Done) before ->
  bench_progress (before ++ Done :: after) =
  (map (fun x => match x with
                 | Tick _ c => Log processed_format [AInt c]
                 | Done => SendDone
                 end) before,
   Some (Ok tt)).
Proof.
  induction 1 as [| x before Hx _ IH]; [reflexivity |].
  destruct x as [t c |]; [| congruence].
  cbn [app bench_progress map]. rewrite IH. reflexivity.
Qed.

(** A tick of the goroutine of generate while the counter is still 0 divides
    by zero. *)
Lemma generate_progress_early_tick (flags : Flags) (start t : time.Time)
    (ws : list Wake) :
  generate_progress flags start (Tick t 0 :: ws) = ([], Some (Halt (Panic DivideByZero))).
Proof. reflexivity. Qed.

(** ** generate: runs in which nothing fails, and the first failure *)






Ltac in_goal :=
  repeat first [rewrite in_app_iff | progress cbn [In]]; intuition auto.



(** X2. Once [sql.Open] and DROP succeed, nothing in a run of generate
    depends on what the store held before: the outcome, the events and the
    store left behind are the same from any two stores. *)
Theorem generate_forgets_store (env : Env) (flags : Flags) (d1 d2 : option Table) :
  fault env CallOpen = None ->
  fault env (CallExec DropTable) = None ->
  generateCmd env flags (start_world d1) = generateCmd env flags (start_world d2).
Proof.
  intros Hopen Hdrop.
  unfold generateCmd, start_world, sql_Open, defer, db_Close, db_Exec.
  rewrite Hopen, Hdrop. run_step. cbn [run_sql]. run_step. reflexivity.
Qed.

Lemma generate_forgets_store_witness :
  generateCmd sample_env (records 2) (start_world (Some old_table)) =
  generateCmd sample_env (records 2) (start_world None).
Proof.
  apply (generate_forgets_store sample_env (records 2) (Some old_table) None);
    reflexivity.
Defined.




(** X4. A run of generate that fails before its loop ends with exit status 1
    and has run no INSERT.  When [sql.Open] or the DROP fails the store is as
    it was and no statement has run; when the CREATE fails the DROP has
    already run: the old table is gone and no new one exists. *)
Theorem generate_setup_failure (env : Env) (flags : Flags) (d : option Table)
    (e : string) :
  fault env CallOpen = Some e \/
  (fault env CallOpen = None /\
   (fault env (CallExec DropTable) = Some e \/
    (fault env (CallExec DropTable) = None /\
     fault env (CallExec CreateTable) = Some e))) ->
  fst (generateCmd env flags (start_world d)) = Halt (Exit 1) /\
  (exists tr f a,
     trace (snd (generateCmd env flags (start_world d))) = tr ++ [Log f (a ++ [AStr e])]) /\
  match fault env CallOpen, fault env (CallExec DropTable) with
  | None, None =>
      db (snd (generateCmd env flags (start_world d))) = None /\
      statements (trace (snd (generateCmd env flags (start_world d)))) = [Sql DropTable []]
  | _, _ =>
      db (snd (generateCmd env flags (start_world d))) = d /\
      statements (trace (snd (generateCmd env flags (start_world d)))) = []
  end.
Proof.
  unfold generateCmd, start_world, sql_Open, defer, db_Close, db_Exec.
  intros [Hopen | [Hopen [Hdrop | [Hdrop Hcreate]]]].
  - rewrite Hopen. run_step. cbn [fst snd db trace]. split; [reflexivity |].
    split; [| split; reflexivity].
    eexists. eexists. exists [AStr (dbPath flags)]. reflexivity.
  - rewrite Hopen, Hdrop. run_step. cbn [fst snd db trace]. split; [reflexivity |].
    split; [| split; reflexivity].
    eexists. eexists. exists []. reflexivity.
  - rewrite Hopen, Hdrop, Hcreate. run_step. cbn [run_sql]. run_step.
    cbn [fst snd db trace]. split; [reflexivity |].
    split; [| split; reflexivity].
    eexists. eexists. exists []. reflexivity.
Qed.

Lemma generate_setup_failure_witness :
  fst (generateCmd create_fails (records 3) (start_world (Some old_table))) = Halt (Exit 1) /\
  db (snd (generateCmd create_fails (records 3) (start_world (Some old_table)))) = None /\
  statements (trace (snd (generateCmd create_fails (records 3)
                            (start_world (Some old_table))))) = [Sql DropTable []].
Proof.
  destruct (generate_setup_failure create_fails (records 3) (Some old_table)
              "attempt to write a readonly database") as (Hres & _ & Hdb).
  - right. split; [reflexivity |]. right. split; reflexivity.
  - split; [exact Hres | exact Hdb].
Defined.



(** ** bench: runs in which nothing fails *)

(** Rows that are verified or skipped: where the loop stands after them,
    with the counter. *)
Lemma bench_loop_forward (env : Env) (pre : time.Time) :
  forall (good rest : list Row) (k : nat) (s : BenchVars) (w : World),
    (forall j, (j < List.length good)%nat ->
       fault env (CallNext (k + j)) = None /\ fault env (CallScan (k + j)) = None) ->
    Forall (fun r => verdict r <> Mismatch) good ->
    exists s1 w1,
      bench_loop env pre (good ++ rest) k s w =
        bench_loop env pre rest (k + List.length good) s1 w1 /\
      db w1 = db w /\
      (0 <= processed s ->
       processed s + Z.of_nat (List.length good) <= MaxInt64 ->
       processed s1 = processed s + count_verified good).
Proof.
  induction good as [| r good IH]; intros rest k s w Hf Hgood.
  - exists s, w. cbn [app List.length]. rewrite Nat.add_0_r.
    split; [reflexivity |]. split; [reflexivity |].
    intros _ _. unfold count_verified. cbn. lia.
  - destruct (Hf 0%nat) as [Hnext Hscan]; [cbn [List.length]; lia |].
    rewrite Nat.add_0_r in Hnext, Hscan.
    inversion Hgood as [| r' good' Hr Hrest]; subst r' good'.
    cbn [app]. rewrite (bench_loop_cons env pre r _ k s w Hnext).
    rewrite (bench_body_verdict env pre k r s _ Hscan).
    assert (Hf' : forall j, (j < List.length good)%nat ->
       fault env (CallNext (S k + j)) = None /\ fault env (CallScan (S k + j)) = None).
    { intros j Hj. replace (S k + j)%nat with (k + S j)%nat by lia.
      apply Hf. cbn [List.length]. lia. }
    pose proof (count_verified_bounds good) as Hb.
    destruct (verdict r) eqn:Hv; [| | congruence].
    + destruct (IH rest (S k)
                  {| processed := processed s; hasher := sha256.New; once_done := true |}
                  (log_line (after_once env pre r s (fetched w k)) decode_message)
                  Hf' Hrest) as (s1 & w1 & Heq & Hdb & Hcount).
      exists s1, w1. cbn [List.length].
      replace (k + S (List.length good))%nat with (S k + List.length good)%nat by lia.
      split; [exact Heq |]. split.
      { rewrite Hdb. unfold log_line. cbn [db]. rewrite after_once_db. reflexivity. }
      intros H0 Hmax. cbn [processed List.length] in *.
      rewrite count_verified_cons, Hv, Hcount; lia.
    + destruct (IH rest (S k)
                  {| processed := incr (processed s); hasher := sha256.New;
                     once_done := true |}
                  (after_once env pre r s (fetched w k))
                  Hf' Hrest) as (s1 & w1 & Heq & Hdb & Hcount).
      exists s1, w1. cbn [List.length].
      replace (k + S (List.length good))%nat with (S k + List.length good)%nat by lia.
      split; [exact Heq |]. split.
      { rewrite Hdb, after_once_db. reflexivity. }
      intros H0 Hmax. cbn [processed List.length] in *.
      rewrite incr_small in Hcount by (unfold MinInt64, MaxInt64 in *; lia).
      rewrite count_verified_cons, Hv, Hcount; lia.
Qed.

(** X6. bench only reads: whatever happens in a run, the store is left as it
    was found. *)
Theorem bench_leaves_store (env : Env) (flags : Flags) (d : option Table) :
  db (snd (benchCmd env flags (start_world d))) = d.
Proof.
  destruct (benchCmd env flags (start_world d)) as [res w'] eqn:Hrun. cbn [snd].
  apply bench_run in Hrun.
  destruct (fault env CallOpen) as [e |]; [destruct Hrun as [_ ->]; reflexivity |].
  destruct (fault env (CallQuery SelectAll)) as [e |];
    [destruct Hrun as [_ ->]; reflexivity |].
  destruct d as [t |]; [| destruct Hrun as [_ ->]; reflexivity].
  destruct Hrun as (lr & wl & Hloop & Hres).
  apply bench_loop_result in Hloop. destruct Hloop as [Hdb _].
  cbn [bench_ready db] in Hdb.
  destruct lr as [[s [e |]] | st].
  - destruct Hres as (_ & -> & _). exact Hdb.
  - cbv zeta in Hres. destruct Hres as [-> _]. exact Hdb.
  - destruct Hres as [_ ->]. exact Hdb.
Qed.

(** X7. bench returns normally exactly when the store can be opened and
    queried, every [rows.Next] and [rows.Scan] succeeds, no row has a hash that
    differs from the digest of its decoded rand, and at least one row is
    verified.  (A table with no verified row ends in the division by zero.) *)
Theorem bench_returns_iff (env : Env) (flags : Flags) (t : Table) :
  Z.of_nat (List.length (rows t)) <= MaxInt64 ->
  (fst (benchCmd env flags (start_world (Some t))) = Ok tt <->
   fault env CallOpen = None /\
   fault env (CallQuery SelectAll) = None /\
   (forall j, (j <= List.length (rows t))%nat -> fault env (CallNext j) = None) /\
   (forall j, (j < List.length (rows t))%nat -> fault env (CallScan j) = None) /\
   Forall (fun r => verdict r <> Mismatch) (rows t) /\
   0 < count_verified (rows t)).
Proof.
  intros Hlen.
  destruct (benchCmd env flags (start_world (Some t))) as [res w'] eqn:Hrun. cbn [fst].
  apply bench_run in Hrun. split.
  - intros ->.
    destruct (fault env CallOpen) as [x |]; [destruct Hrun as [H _]; discriminate H |].
    destruct (fault env (CallQuery SelectAll)) as [x |];
      [destruct Hrun as [H _]; discriminate H |].
    destruct Hrun as (lr & wl & Hloop & Hres).
    apply bench_loop_result in Hloop. destruct Hloop as [_ Hloop].
    destruct lr as [[s [x |]] | st].
    + destruct Hres as [H _]. discriminate H.
    + destruct Hloop as (Hall & Hn & Hs & Hcount).
      cbn [bench_start processed] in Hcount. rewrite !Z.add_0_l in Hcount.
      cbv zeta in Hres. destruct Hres as [_ Hres]. unfold time.Nanoseconds in Hres.
      destruct (int64_div _ (processed s)) as [err | avg] eqn:Hdiv;
        [destruct Hres as [H _]; discriminate H |].
      apply int64_div_inr in Hdiv. destruct Hdiv as [Hnz _].
      rewrite Hcount in Hnz by lia.
      pose proof (count_verified_bounds (rows t)).
      repeat (split; [first [reflexivity | assumption] |]). lia.
    + destruct Hres as [H _]. subst st. discriminate H.
  - intros (Hopen & Hquery & Hn & Hs & Hall & Hpos).
    rewrite Hopen, Hquery in Hrun. destruct Hrun as (lr & wl & Hloop & Hres).
    destruct (bench_loop_forward env (now env 3) (rows t) [] 0 bench_start
                (bench_ready env t)) as (s1 & w1 & Heq & _ & Hcount).
    { intros j Hj. split; [apply Hn | apply Hs]; lia. }
    { exact Hall. }
    rewrite app_nil_r in Heq. rewrite Heq in Hloop. cbn [bench_loop Nat.add] in Hloop.
    rewrite (Hn _ (le_n _)) in Hloop. unfold ret in Hloop. injection Hloop as <- <-.
    cbn [bench_start processed] in Hcount. rewrite !Z.add_0_l in Hcount.
    cbv zeta in Hres. destruct Hres as [_ Hres]. unfold time.Nanoseconds in Hres.
    rewrite Hcount in Hres by lia. unfold int64_div in Hres.
    destruct (Z.eqb_spec (count_verified (rows t)) 0) as [Hz | _]; [lia |].
    exact (proj1 Hres).
Qed.

Lemma bench_returns_iff_witness :
  fst (benchCmd sample_env default_flags (start_world (Some skipping_table))) = Ok tt <->
  fault sample_env CallOpen = None /\
  fault sample_env (CallQuery SelectAll) = None /\
  (forall j, (j <= List.length (rows skipping_table))%nat ->
     fault sample_env (CallNext j) = None) /\
  (forall j, (j < List.length (rows skipping_table))%nat ->
     fault sample_env (CallScan j) = None) /\
  Forall (fun r => verdict r <> Mismatch) (rows skipping_table) /\
  0 < count_verified (rows skipping_table).
Proof.
  apply (bench_returns_iff sample_env default_flags skipping_table).
  unfold MaxInt64. cbn. lia.
Defined.

Lemma generated_row_verified (env : Env) (i : Z) :
  verdict (generated_row env i) = Verified.
Proof.
  unfold verdict, generated_row. cbn [rand hash].
  rewrite decode_encode, String.eqb_refl. reflexivity.
Qed.

Lemma count_verified_generated (env : Env) (i : Z) (n : nat) :
  count_verified (generated_rows env i n) = Z.of_nat n.
Proof.
  revert i. induction n as [| n IH]; intros i; [reflexivity |].
  rewrite generated_rows_S, count_verified_cons, generated_row_verified, IH. lia.
Qed.

Lemma generated_rows_length (env : Env) (i : Z) (n : nat) :
  List.length (generated_rows env i n) = n.
Proof. unfold generated_rows. rewrite length_map, length_seq. reflexivity. Qed.

(** A run of bench in which no call fails and no hash differs: the lines
    after the loop. *)
Lemma bench_passes (env : Env) (flags : Flags) (t : Table) (res : Res unit) (w' : World) :
  Z.of_nat (List.length (rows t)) <= MaxInt64 ->
  fault env CallOpen = None ->
  fault env (CallQuery SelectAll) = None ->
  (forall j, (j <= List.length (rows t))%nat -> fault env (CallNext j) = None) ->
  (forall j, (j < List.length (rows t))%nat -> fault env (CallScan j) = None) ->
  Forall (fun r => verdict r <> Mismatch) (rows t) ->
  benchCmd env flags (start_world (Some t)) = (res, w') ->
  exists wl,
    match int64_div (time.Sub (now env (clock wl)) (now env 0)) (count_verified (rows t)) with
    | inl err =>
        res = Halt (Panic err) /\
        trace w' = trace wl ++ bench_summary env wl (count_verified (rows t))
                     ++ bench_closes env
    | inr avg =>
        res = Ok tt /\
        trace w' = trace wl ++ bench_summary env wl (count_verified (rows t))
                     ++ [Log average_format
                           [ADur avg; ADur (time.Sub (now env (clock wl)) (now env 0))]]
                     ++ bench_closes env
    end.
Proof.
  intros Hlen Hopen Hquery Hn Hs Hall Hrun.
  apply bench_run in Hrun. rewrite Hopen, Hquery in Hrun.
  destruct Hrun as (lr & wl & Hloop & Hres).
  destruct (bench_loop_forward env (now env 3) (rows t) [] 0 bench_start
              (bench_ready env t)) as (s1 & w1 & Heq & _ & Hcount).
  { intros j Hj. split; [apply Hn | apply Hs]; lia. }
  { exact Hall. }
  rewrite app_nil_r in Heq. rewrite Heq in Hloop. cbn [bench_loop Nat.add] in Hloop.
  rewrite (Hn _ (le_n _)) in Hloop. unfold ret in Hloop. injection Hloop as <- <-.
  cbn [bench_start processed] in Hcount. rewrite !Z.add_0_l in Hcount.
  cbv zeta in Hres. destruct Hres as [_ Hres]. unfold time.Nanoseconds in Hres.
  rewrite Hcount in Hres by lia. exists w1.
  destruct (int64_div _ (count_verified (rows t))) as [err | avg].
  - exact Hres.
  - destruct Hres as (Hr & _ & Htr). auto.
Qed.

(** X8. What generate writes, bench accepts.  After a run of generate with a
    positive count that wrote all its rows, a run of bench in which no call
    fails verifies every row: it returns normally and reports [numRecs] rows
    processed, none skipped. *)
Theorem generate_then_bench (env env2 : Env) (flags flags2 : Flags)
    (d : option Table) (r : Res unit) (wg : World) :
  0 < numRecs flags <= MaxInt64 ->
  generateCmd env flags (start_world d) = (r, wg) ->
  In SendDone (trace wg) ->
  fault env2 CallOpen = None ->
  fault env2 (CallQuery SelectAll) = None ->
  (forall j, fault env2 (CallNext j) = None /\ fault env2 (CallScan j) = None) ->
  fst (benchCmd env2 flags2 (start_world (db wg))) = Ok tt /\
  In (Log processed_format [AInt (numRecs flags)])
     (trace (snd (benchCmd env2 flags2 (start_world (db wg))))).
Proof.
  intros [Hpos Hmax] Hgen Hdone Hopen Hquery Hcalls.
  destruct (generate_run env flags d r wg Hmax Hgen) as [Hok Hsetup].
  destruct (Hsetup Hdone) as (Ho & Hd & Hc).
  destruct (Hok Ho Hd Hc) as (n & vac & _ & Hdb & _ & _ & Hn).
  rewrite (Hn Hdone) in Hdb. clear Hn. rewrite Hdb.
  set (t := {| columns := bench_columns;
               rows := generated_rows env 0 (Z.to_nat (numRecs flags)) |}).
  destruct (benchCmd env2 flags2 (start_world (Some t))) as [res w'] eqn:Hrun.
  cbn [fst snd].
  apply bench_passes in Hrun; cbn [t rows];
    [ | rewrite generated_rows_length; lia | exact Hopen | exact Hquery
      | intros j _; apply Hcalls | intros j _; apply Hcalls
      | apply Forall_forall; intros x Hx; apply in_map_iff in Hx;
        destruct Hx as (j & <- & _); rewrite generated_row_verified; discriminate ].
  destruct Hrun as (wl & Hrun). cbn [t rows] in Hrun.
  rewrite count_verified_generated, Z2Nat.id in Hrun by lia.
  unfold int64_div in Hrun.
  destruct (Z.eqb_spec (numRecs flags) 0) as [Hz | _]; [lia |].
  destruct Hrun as [-> ->]. split; [reflexivity |].
  unfold bench_summary. in_goal.
Qed.

Lemma generate_then_bench_witness :
  fst (benchCmd sample_env default_flags
         (start_world (db (snd (generateCmd sample_env (records 3) (start_world None))))))
    = Ok tt /\
  In (Log processed_format [AInt 3])
     (trace (snd (benchCmd sample_env default_flags
                    (start_world (db (snd (generateCmd sample_env (records 3)
                                             (start_world None)))))))).
Proof.
  apply (generate_then_bench sample_env sample_env (records 3) default_flags None
           (fst (generateCmd sample_env (records 3) (start_world None)))).
  - unfold MaxInt64. cbn. lia.
  - apply surjective_pairing.
  - vm_compute. do 12 right. left. reflexivity.
  - reflexivity.
  - reflexivity.
  - intros j. split; reflexivity.
Defined.

(** ** bench: errors and where they are reported *)

(** X9. An error met by [rows.Next] is looked at only after the loop's
    summary.  When the first call to fail is the [rows.Next] asked for row
    [k], and the [k] rows before it are verified or skipped, the run sends
    [done], logs the number of rows verified so far and the duration of the
    loop, and only then logs the error and exits with status 1; the line with
    the average is never written. *)
Theorem bench_iteration_error_after_summary (env : Env) (flags : Flags) (t : Table)
    (k : nat) (e : string) :
  (k <= List.length (rows t))%nat ->
  Z.of_nat (List.length (rows t)) <= MaxInt64 ->
  fault env CallOpen = None ->
  fault env (CallQuery SelectAll) = None ->
  (forall j, (j < k)%nat ->
     fault env (CallNext j) = None /\ fault env (CallScan j) = None) ->
  fault env (CallNext k) = Some e ->
  Forall (fun r => verdict r <> Mismatch) (firstn k (rows t)) ->
  fst (benchCmd env flags (start_world (Some t))) = Halt (Exit 1) /\
  exists tr el,
    trace (snd (benchCmd env flags (start_world (Some t)))) =
      tr ++ [SendDone;
             Log processed_format [AInt (count_verified (firstn k (rows t)))];
             Log "Finished loop after %s" [ADur el];
             Log e []].
Proof.
  intros Hk Hlen Hopen Hquery Hcalls Hnext Hgood.
  destruct (benchCmd env flags (start_world (Some t))) as [res w'] eqn:Hrun.
  cbn [fst snd]. apply bench_run in Hrun. rewrite Hopen, Hquery in Hrun.
  destruct Hrun as (lr & wl & Hloop & Hres).
  assert (Hfl : List.length (firstn k (rows t)) = k) by (apply firstn_length_le, Hk).
  destruct (bench_loop_forward env (now env 3) (firstn k (rows t)) (skipn k (rows t)) 0
              bench_start (bench_ready env t)) as (s1 & w1 & Heq & _ & Hcount).
  { rewrite Hfl. intros j Hj. apply Hcalls. lia. }
  { exact Hgood. }
  rewrite firstn_skipn, Hfl in Heq. cbn [Nat.add] in Heq.
  rewrite Heq, (bench_loop_iteration_error env _ _ k s1 w1 e Hnext) in Hloop.
  injection Hloop as <- <-. destruct Hres as (-> & _ & ->).
  split; [reflexivity |].
  cbn [bench_start processed] in Hcount. rewrite Hfl, !Z.add_0_l in Hcount.
  rewrite Hcount by lia.
  exists (trace w1). eexists. unfold bench_summary. cbn [app]. reflexivity.
Qed.

Lemma bench_iteration_error_after_summary_witness :
  fst (benchCmd cursor_breaks default_flags (start_world (Some altered_table))) =
    Halt (Exit 1) /\
  exists tr el,
    trace (snd (benchCmd cursor_breaks default_flags (start_world (Some altered_table)))) =
      tr ++ [SendDone;
             Log processed_format [AInt (count_verified (firstn 2 (rows altered_table)))];
             Log "Finished loop after %s" [ADur el];
             Log "database disk image is malformed" []].
Proof.
  apply (bench_iteration_error_after_summary cursor_breaks default_flags altered_table 2
           "database disk image is malformed").
  - cbn. lia.
  - unfold MaxInt64. cbn. lia.
  - reflexivity.
  - reflexivity.
  - intros j Hj. assert (Hc : j = 0%nat \/ j = 1%nat) by lia.
    destruct Hc as [-> | ->]; split; reflexivity.
  - reflexivity.
  - repeat constructor; vm_compute; discriminate.
Defined.

(** X10. A run of bench that cannot open or query the store exits with
    status 1 before the loop: no row is fetched, the progress goroutine is
    not started, [done] is not sent and no deferred [Close] runs.  A failure
    of [sql.Open] is written to standard output, not to the log. *)
Theorem bench_never_starts (env : Env) (flags : Flags) (d : option Table) (e : string) :
  fault env CallOpen = Some e \/
  (fault env CallOpen = None /\ fault env (CallQuery SelectAll) = Some e) ->
  fst (benchCmd env flags (start_world d)) = Halt (Exit 1) /\
  trace (snd (benchCmd env flags (start_world d))) =
    Log "Running benchmark" [] ::
    match fault env CallOpen with
    | Some _ => [Print "Error while opening database '%s': %s" [AStr (dbPath flags); AStr e]]
    | None => [Log e []]
    end.
Proof.
  intros Hfail.
  destruct (benchCmd env flags (start_world d)) as [res w'] eqn:Hrun.
  cbn [fst snd]. apply bench_run in Hrun.
  destruct Hfail as [Hopen | [Hopen Hquery]].
  - rewrite Hopen in *. destruct Hrun as [-> ->]. split; reflexivity.
  - rewrite Hopen, Hquery in *. destruct Hrun as [-> ->]. split; reflexivity.
Qed.

Lemma bench_never_starts_witness :
  fst (benchCmd open_fails default_flags (start_world (Some two_rows))) = Halt (Exit 1) /\
  trace (snd (benchCmd open_fails default_flags (start_world (Some two_rows)))) =
    [Log "Running benchmark" [];
     Print "Error while opening database '%s': %s"
       [AStr "./sqlite3perf.db"; AStr "unable to open database file"]].
Proof.
  apply (bench_never_starts open_fails default_flags (Some two_rows)
           "unable to open database file").
  left. reflexivity.
Defined.

(** X11. A row that cannot be scanned ends bench at once.  When the first
    call to fail is the [rows.Scan] of row [k], and the rows before it are
    verified or skipped, the run exits with status 1 right after fetching
    that row: the error is the last line, [done] is not sent, no later row is
    fetched. *)
Theorem bench_scan_error_is_fatal (env : Env) (flags : Flags) (t : Table)
    (before : list Row) (r : Row) (after : list Row) (e : string) :
  rows t = before ++ r :: after ->
  fault env CallOpen = None ->
  fault env (CallQuery SelectAll) = None ->
  (forall j, (j < List.length before)%nat ->
     fault env (CallNext j) = None /\ fault env (CallScan j) = None) ->
  fault env (CallNext (List.length before)) = None ->
  fault env (CallScan (List.length before)) = Some e ->
  Forall (fun x => verdict x <> Mismatch) before ->
  fst (benchCmd env flags (start_world (Some t))) = Halt (Exit 1) /\
  (exists tr, trace (snd (benchCmd env flags (start_world (Some t)))) =
              tr ++ [Next (List.length before); Log e []]) /\
  ~ In SendDone (trace (snd (benchCmd env flags (start_world (Some t))))) /\
  (forall j, In (Next j) (trace (snd (benchCmd env flags (start_world (Some t))))) ->
             (j <= List.length before)%nat).
Proof.
  intros Hrows Hopen Hquery Hcalls Hnext Hscan Hgood.
  destruct (benchCmd env flags (start_world (Some t))) as [res w'] eqn:Hrun.
  cbn [fst snd]. apply bench_run in Hrun. rewrite Hopen, Hquery in Hrun.
  destruct Hrun as (lr & wl & Hloop & Hres).
  destruct (bench_loop_prefix env (now env 3) before (r :: after) 0 bench_start
              (bench_ready env t) Hcalls Hgood)
    as (s1 & w1 & ev & Heq & _ & Htr & Hnx & Hsd).
  rewrite Hrows, Heq in Hloop. cbn [Nat.add] in Hloop, Hnx.
  rewrite (bench_loop_cons env _ r after _ s1 w1 Hnext) in Hloop.
  rewrite (bench_body_scan_error env _ _ r s1 _ e Hscan) in Hloop.
  injection Hloop as <- <-. destruct Hres as [-> ->].
  split; [reflexivity |].
  unfold log_line, fetched. cbn [db trace clock]. rewrite Htr.
  split; [| split].
  - exists (trace (bench_ready env t) ++ ev). rewrite <- !app_assoc. reflexivity.
  - intros Hj. unfold bench_ready in Hj. in_norm Hj.
    destruct Hj as [[[Hj | Hj] | Hj] | Hj].
    + repeat (destruct Hj as [Hj | Hj]; [discriminate Hj |]). destruct Hj.
    + exact (Hsd Hj).
    + destruct Hj as [Hj | []]. discriminate Hj.
    + destruct Hj as [Hj | []]. discriminate Hj.
  - intros j Hj. unfold bench_ready in Hj. in_norm Hj.
    destruct Hj as [[[Hj | Hj] | Hj] | Hj].
    + repeat (destruct Hj as [Hj | Hj]; [discriminate Hj |]). destruct Hj.
    + apply Nat.lt_le_incl, Hnx, Hj.
    + destruct Hj as [Hj | []]. injection Hj as <-. lia.
    + destruct Hj as [Hj | []]. discriminate Hj.
Qed.

Lemma bench_scan_error_is_fatal_witness :
  fst (benchCmd scan_fails default_flags (start_world (Some two_rows))) = Halt (Exit 1) /\
  (exists tr, trace (snd (benchCmd scan_fails default_flags (start_world (Some two_rows)))) =
              tr ++ [Next 1; Log "sql: Scan error on column index 1" []]) /\
  ~ In SendDone (trace (snd (benchCmd scan_fails default_flags (start_world (Some two_rows))))) /\
  (forall j, In (Next j) (trace (snd (benchCmd scan_fails default_flags
                                        (start_world (Some two_rows))))) ->
             (j <= 1)%nat).
Proof.
  apply (bench_scan_error_is_fatal scan_fails default_flags two_rows
           [good_row_0] good_row_1 [] "sql: Scan error on column index 1").
  - reflexivity.
  - reflexivity.
  - reflexivity.
  - intros j Hj. assert (j = 0%nat) as -> by (cbn in Hj; lia). split; reflexivity.
  - reflexivity.
  - reflexivity.
  - repeat constructor; vm_compute; discriminate.
Defined.

(** ** generate: a negative count *)

(** X12. With a negative count, a run of generate that gets through its
    setup returns normally, exit status 0, whether or not the statement could
    be prepared or the VACUUM worked: it has dropped the table, written no
    row, sent [done], and reported 0 records written. *)
Theorem generate_negative_count_returns (env : Env) (flags : Flags) (d : option Table) :
  numRecs flags < 0 ->
  fault env CallOpen = None ->
  fault env (CallExec DropTable) = None ->
  fault env (CallExec CreateTable) = None ->
  fst (generateCmd env flags (start_world d)) = Ok tt /\
  db (snd (generateCmd env flags (start_world d))) =
    Some {| columns := bench_columns; rows := [] |} /\
  In SendDone (trace (snd (generateCmd env flags (start_world d)))) /\
  exists l pct dur,
    In (Log written_format [AInt l; AInt 0; AInt l; AInt (numRecs flags); AFloat pct; ADur dur])
       (trace (snd (generateCmd env flags (start_world d)))).
Proof.
  intros Hneg Hopen Hdrop Hcreate.
  destruct (generateCmd env flags (start_world d)) as [res w'] eqn:Hrun.
  unfold generateCmd, start_world, sql_Open, defer, db_Close, db_Exec, db_Prepare in Hrun.
  rewrite Hopen, Hdrop, Hcreate in Hrun.
  assert (Hst : exists st,
     match fault env (CallPrepare InsertRow) with
     | Some e => ret (None, Some e)
     | None => ret (Some InsertRow, None)
     end = ret (st, fault env (CallPrepare InsertRow))).
  { destruct (fault env (CallPrepare InsertRow)); eexists; reflexivity. }
  destruct Hst as (st & Hst). rewrite Hst in Hrun. clear Hst.
  run_step. cbn [run_sql app] in Hrun. run_step.
  rewrite Z_to_nat_nonpos in Hrun by lia. cbn [generate_loop] in Hrun. run_step.
  unfold int64_div in Hrun.
  destruct (Z.eqb_spec (numRecs flags) 0) as [Hz | _]; [lia |]. run_step.
  destruct (vacuum flags).
  - destruct (fault env (CallExec Vacuum)); run_step; cbn [run_sql] in Hrun; run_step;
      injection Hrun as <- <-; cbn [fst snd db trace];
      (split; [reflexivity |]); (split; [reflexivity |]); (split; [in_goal |]);
      do 3 eexists; in_goal.
  - injection Hrun as <- <-. cbn [fst snd db trace].
    split; [reflexivity |]. split; [reflexivity |]. split; [in_goal |].
    do 3 eexists. in_goal.
Qed.

Lemma generate_negative_count_returns_witness :
  fst (generateCmd prepare_fails (records (-5)) (start_world (Some old_table))) = Ok tt /\
  db (snd (generateCmd prepare_fails (records (-5)) (start_world (Some old_table)))) =
    Some {| columns := bench_columns; rows := [] |} /\
  In SendDone (trace (snd (generateCmd prepare_fails (records (-5))
                             (start_world (Some old_table))))) /\
  exists l pct dur,
    In (Log written_format [AInt l; AInt 0; AInt l; AInt (-5); AFloat pct; ADur dur])
       (trace (snd (generateCmd prepare_fails (records (-5)) (start_world (Some old_table))))).
Proof.
  apply (generate_negative_count_returns prepare_fails (records (-5)) (Some old_table)).
  - cbn. lia.
  - reflexivity.
  - reflexivity.
  - reflexivity.
Defined.

(** ** The progress goroutines *)

Lemma generate_progress_tick (flags : Flags) (start t : time.Time) (i : Z)
    (ws : list Wake) :
  i <> 0 ->
  exists line,
    generate_progress flags start (Tick t i :: ws) =
    (line :: fst (generate_progress flags start ws),
     snd (generate_progress flags start ws)).
Proof.
  intros Hi. cbn [generate_progress]. unfold int64_div.
  destruct (Z.eqb_spec i 0) as [Hz | _]; [contradiction |].
  destruct (generate_progress flags start ws) as [out r]. eexists. reflexivity.
Qed.

(** X13. The progress goroutine of generate logs one line for each tick that
    finds the counter above 0.  When [done] arrives it returns, and whatever
    would wake it later is never seen; when a tick finds the counter still at
    0 (the first insert has not finished) it divides by zero and the process
    dies, with only the earlier lines logged. *)
Theorem generate_progress_behaviour (flags : Flags) (start : time.Time)
    (before after : list Wake) (t : time.Time) :
  Forall counting_tick before ->
  (List.length (fst (generate_progress flags start (before ++ Done :: after))) =
     List.length before /\
   snd (generate_progress flags start (before ++ Done :: after)) = Some (Ok tt)) /\
  (List.length (fst (generate_progress flags start (before ++ Tick t 0 :: after))) =
     List.length before /\
   snd (generate_progress flags start (before ++ Tick t 0 :: after)) =
     Some (Halt (Panic DivideByZero))) /\
  (List.length (fst (generate_progress flags start before)) = List.length before /\
   snd (generate_progress flags start before) = None).
Proof.
  induction 1 as [| x before Hx _ IH].
  - cbn [app generate_progress List.length fst snd]. unfold int64_div. cbn [Z.eqb fst snd].
    repeat split.
  - destruct x as [tx i |]; [| destruct Hx]. cbn [counting_tick] in Hx.
    destruct IH as ([L1 R1] & [L2 R2] & [L3 R3]).
    cbn [app].
    destruct (generate_progress_tick flags start tx i (before ++ Done :: after) Hx)
      as (l1 & ->).
    destruct (generate_progress_tick flags start tx i (before ++ Tick t 0 :: after) Hx)
      as (l2 & ->).
    destruct (generate_progress_tick flags start tx i before Hx) as (l3 & ->).
    cbn [fst snd List.length]. rewrite L1, L2, L3. auto.
Qed.

Lemma generate_progress_behaviour_witness :
  List.length (fst (generate_progress (records 50) 0 sample_wakes)) = 2%nat /\
  snd (generate_progress (records 50) 0 sample_wakes) = Some (Ok tt).
Proof.
  refine (proj1 (generate_progress_behaviour (records 50) 0
                   [Tick 2000000000 17; Tick 4000000000 40] [Tick 6000000000 40] 0 _)).
  repeat constructor; cbn; discriminate.
Defined.

(** X14. The progress goroutine of bench cannot fail: on every sequence of
    wake-ups it either is still waiting or has returned, and it has returned
    exactly when [done] was among them.  Up to [done] it logs one line for
    each tick, with the counter as read at that tick, and nothing after. *)
Theorem bench_progress_behaviour (ws before after : list Wake) :
  Forall (fun x => x <> Done) before ->
  snd (bench_progress ws) =
    (if existsb (fun x => match x with Done => true | Tick _ _ => false end) ws
     then Some (Ok tt) else None) /\
  fst (bench_progress (before ++ Done :: after)) =
    map (fun x => match x with
                  | Tick _ c => Log processed_format [AInt c]
                  | Done => SendDone
                  end) before /\
  fst (bench_progress (before ++ Done :: after)) = fst (bench_progress before).
Proof.
  intros Hbefore. split; [| split].
  - induction ws as [| x ws IH]; [reflexivity |].
    destruct x as [tx c |]; cbn [bench_progress existsb orb]; [| reflexivity].
    destruct (bench_progress ws) as [out r]. exact IH.
  - rewrite (bench_progress_until_done before after Hbefore). reflexivity.
  - induction Hbefore as [| x before Hx _ IH]; [reflexivity |].
    destruct x as [tx c |]; [| congruence].
    cbn [app bench_progress].
    destruct (bench_progress (before ++ Done :: after)) as [o1 r1].
    destruct (bench_progress before) as [o2 r2].
    cbn [fst] in *. rewrite IH. reflexivity.
Qed.

Lemma bench_progress_behaviour_witness :
  snd (bench_progress sample_wakes) = Some (Ok tt) /\
  fst (bench_progress sample_wakes) =
    [Log processed_format [AInt 17]; Log processed_format [AInt 40]].
Proof.
  destruct (bench_progress_behaviour sample_wakes
              [Tick 2000000000 17; Tick 4000000000 40] [Tick 6000000000 40])
    as (Hend & Hlines & _).
  - repeat constructor; discriminate.
  - split; [exact Hend | exact Hlines].
Defined.

(** ** The layout of the rows *)

Lemma EncodeToString_length (bs : list byte) :
  String.length (hex.EncodeToString bs) = (2 * List.length bs)%nat.
Proof.
  induction bs as [| b bs IH]; [reflexivity |].
  rewrite EncodeToString_cons. cbn [String.length List.length]. rewrite IH. lia.
Qed.

Lemma round_length (s : list Z) (kw : Z * Z) :
  List.length (sha256.round s kw) = List.length s.
Proof.
  unfold sha256.round.
  destruct s as [| a [| b [| c [| d [| e [| f [| g [| h [| i s]]]]]]]]]; reflexivity.
Qed.

Lemma rounds_length (kws : list (Z * Z)) :
  forall s, List.length (fold_left sha256.round kws s) = List.length s.
Proof.
  induction kws as [| kw kws IH]; intros s; [reflexivity |].
  cbn [fold_left]. rewrite IH. apply round_length.
Qed.

Lemma block_length (h blk : list Z) :
  List.length (sha256.block h blk) = List.length h.
Proof.
  unfold sha256.block. rewrite length_map, length_combine, rounds_length. lia.
Qed.

Lemma blocks_length (n : nat) :
  forall h bs, List.length (sha256.blocks n h bs) = List.length h.
Proof.
  induction n as [| n IH]; intros h bs; [reflexivity |].
  cbn [sha256.blocks]. rewrite IH. apply block_length.
Qed.

Lemma be_words_length (h : list Z) :
  List.length (flat_map (sha256.be_bytes 4) h) = (4 * List.length h)%nat.
Proof.
  induction h as [| x h IH]; [reflexivity |].
  cbn [flat_map]. rewrite length_app, IH.
  unfold sha256.be_bytes. rewrite length_map. cbn [seq rev app List.length]. lia.
Qed.

(** A SHA-256 digest has 32 bytes. *)
Lemma Sum256_length (msg : list byte) : List.length (sha256.Sum256 msg) = 32%nat.
Proof.
  unfold sha256.Sum256. cbv zeta.
  rewrite length_map, be_words_length, blocks_length. reflexivity.
Qed.

Lemma generated_row_layout (env : Env) (i : Z) : well_laid_out (generated_row env i).
Proof.
  unfold well_laid_out, generated_row. cbn [rand hash].
  rewrite !EncodeToString_length, Sum256_length.
  unfold bytes8. rewrite length_map. split; reflexivity.
Qed.

(** X15. Every row a run of generate leaves in the table has a rand column
    of 16 characters and a hash column of 64: the hex forms of 8 random bytes
    and of a 32-byte digest.  This holds for runs that stop half way too. *)
Theorem generate_rows_layout (env : Env) (flags : Flags) (d : option Table) :
  numRecs flags <= MaxInt64 ->
  fault env CallOpen = None ->
  fault env (CallExec DropTable) = None ->
  fault env (CallExec CreateTable) = None ->
  exists t,
    db (snd (generateCmd env flags (start_world d))) = Some t /\
    columns t = bench_columns /\
    Forall well_laid_out (rows t).
Proof.
  intros Hmax Hopen Hdrop Hcreate.
  destruct (generate_run env flags d _ _ Hmax (surjective_pairing _)) as [Hok _].
  destruct (Hok Hopen Hdrop Hcreate) as (n & vac & _ & Hdb & _).
  eexists. split; [exact Hdb |]. split; [reflexivity |].
  cbn [rows]. apply Forall_forall. intros r Hr.
  unfold generated_rows in Hr. apply in_map_iff in Hr. destruct Hr as (k & <- & _).
  apply generated_row_layout.
Qed.

Lemma generate_rows_layout_witness :
  exists t,
    db (snd (generateCmd insert_fails (records 4) (start_world None))) = Some t /\
    columns t = bench_columns /\
    Forall well_laid_out (rows t).
Proof.
  apply (generate_rows_layout insert_fails (records 4) None).
  - unfold MaxInt64. cbn. lia.
  - reflexivity.
  - reflexivity.
  - reflexivity.
Defined.

(** ** What bench accepts *)

(** X16. The check of bench is the invariant of generate read as strings.
    For a row that scans, the body of the loop counts the row when it is
    verified, passes it over when it is skipped and exits with status 1
    otherwise; a row is verified exactly when its rand decodes as hex and its
    hash column is, character for character, the lower-case hex form of the
    SHA-256 digest of the decoded bytes (so a verified hash has 64
    characters), and skipped exactly when its rand does not decode. *)
Theorem bench_verdict_meaning (r : Row) :
  (forall env pre k s w,
     fault env (CallScan k) = None ->
     fst (bench_body env pre k r s w) =
     match verdict r with
     | Verified =>
         Ok {| processed := incr (processed s); hasher := sha256.New; once_done := true |}
     | Skipped =>
         Ok {| processed := processed s; hasher := sha256.New; once_done := true |}
     | Mismatch => Halt (Exit 1)
     end) /\
  (verdict r = Verified <-> hash_matches r) /\
  (verdict r = Verified -> String.length (hash r) = 64%nat) /\
  (verdict r = Skipped <-> snd (hex.DecodeString (rand r)) <> None).
Proof.
  split.
  { intros env pre k s w Hscan. rewrite (bench_body_verdict env pre k r s w Hscan).
    destruct (verdict r); reflexivity. }
  unfold verdict, hash_matches.
  destruct (hex.DecodeString (rand r)) as [v [e |]] eqn:Hdec; cbn [snd].
  - split; [| split].
    + split; [discriminate |]. intros (v' & H & _). discriminate H.
    + discriminate.
    + split; [discriminate | reflexivity].
  - destruct (String.eqb_spec (hex.EncodeToString (sha256.Sum256 v)) (hash r)) as [Heq | Hne].
    + split; [| split].
      * split; [| reflexivity]. intros _. exists v. auto.
      * intros _. rewrite <- Heq, EncodeToString_length, Sum256_length. reflexivity.
      * split; [discriminate | intros H; contradiction H; reflexivity].
    + split; [| split].
      * split; [discriminate |]. intros (v' & [= <-] & H). congruence.
      * discriminate.
      * split; [discriminate | intros H; contradiction H; reflexivity].
Qed.
